(** * circlecore: the [Circleguard] orchestrator

    A shallow embedding of [circleguard/circleguard.py]: the constructor
    [Circleguard.__init__], the generator method [Circleguard.run] and
    [Circleguard.set_options].

    [run] is a Python generator.  Its body is embedded as a term of the
    free monad [Gen], whose constructors are the four things a generator
    body can do next: return, raise, perform an external interaction, or
    yield a value and suspend.  The generator object and its consumer
    ([next], [close]) are a state machine over such terms, threading the
    log of interactions performed so far. *)

From Stdlib Require Import List String ZArith Bool Lia.
Import ListNotations.
Local Open Scope string_scope.
Local Open Scope Z_scope.
Local Open Scope list_scope.

Set Implicit Arguments.

(** ** Data *)

Definition Path := string.

(** Exceptions that reach [circleguard.py].  [AttributeError] is Python's
    own; the other three are the collaborators' failures. *)
Inductive Exn : Type :=
| AttributeError (type_name attr : string)
| UnknownMap (map_id : Z)
| UnavailableReplay
| RateLimited.

(** A loaded replay; [run] itself only reads [map_id]. *)
Record Replay : Type := mkReplay {
  replay_id : Z;
  map_id : Z
}.

(** The beatmap object handed back by [Library.lookup_by_id]. *)
Record Beatmap : Type := mkBeatmap {
  beatmap_id : Z
}.

Inductive DetectFlag : Type := STEAL | RELAX | CORRECTION.

Definition DetectFlag_eqb (a b : DetectFlag) : bool :=
  match a, b with
  | STEAL, STEAL | RELAX, RELAX | CORRECTION, CORRECTION => true
  | _, _ => false
  end.

(** [check.detect]: the enabled detectors and their thresholds. *)
Record Detect : Type := mkDetect {
  flags : list DetectFlag;
  steal_thresh : Z;
  ur_thresh : Z
}.

(** [flag in d] *)
Definition Detect_contains (flag : DetectFlag) (d : Detect) : bool :=
  existsb (DetectFlag_eqb flag) (flags d).

(** A check before loading: references to replays, and what to detect. *)
Record Check : Type := mkCheck {
  loadables : list Z;
  loadables2 : option (list Z);
  detect : Detect
}.

(** What [c.all_replays()] and [c.all_replays2()] return once [c.load]
    has succeeded. *)
Record Replays : Type := mkReplays {
  all_replays : list Replay;
  all_replays2 : option (list Replay)
}.

Inductive Result : Type :=
| ComparisonResult (replay1 replay2 : Replay) (similarity : option Z)
                   (thresh : Z) (ischeat : bool)
| RelaxResult (replay : Replay) (ur : option Z) (thresh : Z) (ischeat : bool).

Record Cacher : Type := mkCacher {
  should_cache : bool;
  cacher_path : Path
}.

(** [Loader(key, cacher=self.cacher)], or the caller's own class.  The
    cacher it is given is the very object held in [self.cacher]; the model
    keeps that object once, in the instance. *)
Record Loader : Type := mkLoader {
  loader_class : option string;
  loader_key : string
}.

(** An open connection of [slider.Library] to a beatmap directory. *)
Record Library : Type := mkLibrary {
  library_path : Path
}.

Record Circleguard : Type := mkCircleguard {
  cache : bool;
  cacher : option Cacher;
  loader : Loader;
  slider_dir : option Path;   (* the TemporaryDirectory, when one was made *)
  library : option Library
}.

Record Comparer : Type := mkComparer {
  threshold : Z;
  replays1 : list Replay;
  replays2 : option (list Replay)
}.

Record Investigator : Type := mkInvestigator {
  inv_replay : Replay;
  inv_beatmap : Beatmap;
  inv_threshold : Z
}.

(** ** Generator bodies *)

Inductive Gen (E R A : Type) : Type :=
| Ret (a : A)
| Raise (x : Exn)
| Do (e : E) (k : Gen E R A)
| Yield (r : R) (k : Gen E R A).

Arguments Ret {E R A} a.
Arguments Raise {E R A} x.

Fixpoint bind {E R A B} (m : Gen E R A) (f : A -> Gen E R B) : Gen E R B :=
  match m with
  | Ret a => f a
  | Raise x => Raise x
  | Do e k => Do e (bind k f)
  | Yield r k => Yield r (bind k f)
  end.

Declare Scope gen_scope.
Delimit Scope gen_scope with gen.
Notation "x <- m ;; k" := (bind m (fun x => k))
  (at level 61, m at next level, right associativity) : gen_scope.
Notation "m ;; k" := (bind m (fun _ => k))
  (at level 61, right associativity) : gen_scope.
Local Open Scope gen_scope.

(** A single interaction and a single [yield]. *)
Definition perform {E R} (e : E) : Gen E R unit := Do e (Ret tt).
Definition yield {E R} (r : R) : Gen E R unit := Yield r (Ret tt).

(** [for x in xs: body(x)] *)
Fixpoint for_each {E R X} (xs : list X) (body : X -> Gen E R unit)
  : Gen E R unit :=
  match xs with
  | [] => Ret tt
  | x :: rest => body x ;; for_each rest body
  end.

(** [yield from sub], where the sub-generator's own interactions are seen
    from outside through [inj]. *)
Fixpoint yield_from {E1 E2 R A} (inj : E1 -> E2) (sub : Gen E1 R A)
  : Gen E2 R A :=
  match sub with
  | Ret a => Ret a
  | Raise x => Raise x
  | Do e k => Do (inj e) (yield_from inj k)
  | Yield r k => Yield r (yield_from inj k)
  end.

(** The unfolding of a body: everything it does, in order, and how it
    ends. *)
Inductive Item (E R : Type) : Type :=
| Ev (e : E)
| Out (r : R).

Arguments Ev {E R} e.
Arguments Out {E R} r.

Inductive End (A : Type) : Type :=
| Returned (a : A)
| Raised (x : Exn).

Arguments Raised {A} x.

Fixpoint items {E R A} (g : Gen E R A) : list (Item E R) :=
  match g with
  | Ret _ | Raise _ => []
  | Do e k => Ev e :: items k
  | Yield r k => Out r :: items k
  end.

Fixpoint finish {E R A} (g : Gen E R A) : End A :=
  match g with
  | Ret a => Returned a
  | Raise x => Raised x
  | Do _ k | Yield _ k => finish k
  end.

Fixpoint events {E R} (l : list (Item E R)) : list E :=
  match l with
  | [] => []
  | Ev e :: l' => e :: events l'
  | Out _ :: l' => events l'
  end.

Fixpoint outputs {E R} (l : list (Item E R)) : list R :=
  match l with
  | [] => []
  | Ev _ :: l' => outputs l'
  | Out r :: l' => r :: outputs l'
  end.

Definition map_item {E1 E2 R} (inj : E1 -> E2) (i : Item E1 R) : Item E2 R :=
  match i with
  | Ev e => Ev (inj e)
  | Out r => Out r
  end.

(** The items up to and including the [n]-th output (all of them when
    there are fewer than [n] outputs). *)
Fixpoint upto {E R} (n : nat) (l : list (Item E R)) : list (Item E R) :=
  match l with
  | [] => []
  | Ev e :: l' => match n with O => [] | S _ => Ev e :: upto n l' end
  | Out r :: l' => match n with O => [] | S m => Out r :: upto m l' end
  end.

(** ** Interactions *)

(** What a detector does between two results.  A detector is handed
    replays, a beatmap and a threshold, nothing else. *)
Inductive Work : Type :=
| Compared (replay1 replay2 : Replay)
| Investigated (replay : Replay) (bm : Beatmap).

Inductive Event : Type :=
| LogInfo (c : Check)
| CheckLoad (l : Loader) (cr : option Cacher) (c : Check)
| StealWork (w : Work)
| LibraryCreateDb (dir : Path)
| LibraryOpen (dir : Path)
| LibraryLookup (lib : Library) (map_id : Z) (download save : bool)
| RelaxWork (w : Work)
| LibraryClose (lib : Library).

(** The collaborators of [circleguard.py]: the check's loading, the two
    detectors, the beatmap library, and the names the file system gives
    out. *)
Record Collaborators : Type := mkCollaborators {
  check_load : Loader -> option Cacher -> Check -> Exn + Replays;
  compare : Comparer -> Gen Work Result unit;
  investigate : Investigator -> Gen Work Result unit;
  library_lookup : Library -> Z -> Exn + Beatmap;
  path_absolute : Path -> Path;
  temporary_directory : Path
}.

(** ** [Circleguard.__init__] *)

(** Returns the new instance and the library interactions performed while
    constructing it. *)
Definition Circleguard_init (W : Collaborators) (key : string)
    (db_path : option Path) (slider_dir_arg : option Path)
    (loader_arg : option string) (cache_arg : bool)
  : Circleguard * list Event :=
  let cacher0 :=
    match db_path with
    | Some p => Some (mkCacher cache_arg (path_absolute W p))
    | None => None
    end in
  let loader0 := mkLoader loader_arg key in
  match slider_dir_arg with
  | None =>
      let tmp := temporary_directory W in
      (mkCircleguard cache_arg cacher0 loader0 (Some tmp) None,
       [LibraryCreateDb tmp; LibraryClose (mkLibrary tmp)])
  | Some dir =>
      (mkCircleguard cache_arg cacher0 loader0 None (Some (mkLibrary dir)),
       [LibraryOpen dir])
  end.

(** ** [Circleguard.run] *)

Section Run.

Variable W : Collaborators.

(** [c.load(self.loader)] *)
Definition load (self : Circleguard) (c : Check) : Gen Event Result Replays :=
  Do (CheckLoad (loader self) (cacher self) c)
     (match check_load W (loader self) (cacher self) c with
      | inl x => Raise x
      | inr rs => Ret rs
      end).

(** [Library(self.slider_dir.name)] *)
Definition library_connect (self : Circleguard) : Gen Event Result Library :=
  match slider_dir self with
  | Some dir => Do (LibraryOpen dir) (Ret (mkLibrary dir))
  | None => Raise (AttributeError "Circleguard" "slider_dir")
  end.

(** [library.lookup_by_id(map_id, download=True, save=True)] *)
Definition lookup_by_id (lib : Library) (mid : Z) (download save : bool)
  : Gen Event Result Beatmap :=
  Do (LibraryLookup lib mid download save)
     (match library_lookup W lib mid with
      | inl x => Raise x
      | inr bm => Ret bm
      end).

(** The block under [# steal check]. *)
Definition steal_check (d : Detect) (c : Replays) : Gen Event Result unit :=
  if Detect_contains STEAL d then
    let compare1 := all_replays c in
    let compare2 := all_replays2 c in
    let comparer := mkComparer (steal_thresh d) compare1 compare2 in
    yield_from StealWork (compare W comparer)
  else Ret tt.

(** The body of [for replay in c.all_replays()]. *)
Definition relax_replay (d : Detect) (lib : Library) (replay : Replay)
  : Gen Event Result unit :=
  bm <- lookup_by_id lib (map_id replay) true true ;;
  let investigator := mkInvestigator replay bm (ur_thresh d) in
  yield_from RelaxWork (investigate W investigator).

(** The block under [# relax check]. *)
Definition relax_check (self : Circleguard) (d : Detect) (c : Replays)
  : Gen Event Result unit :=
  if Detect_contains RELAX d then
    lib <- match library self with
           | None => library_connect self
           | Some l => Ret l
           end ;;
    for_each (all_replays c) (relax_replay d lib) ;;
    match library self with
    | None => perform (LibraryClose lib)
    | Some _ => Ret tt
    end
  else Ret tt.

Definition run (self : Circleguard) (check : Check) : Gen Event Result unit :=
  let c := check in
  perform (LogInfo c) ;;
  rs <- load self c ;;
  let d := detect c in
  steal_check d rs ;;
  relax_check self d rs.

End Run.

(** ** The generator object and its consumer *)

Inductive Pull (R : Type) : Type :=
| Got (r : R)
| StopIteration
| Failure (x : Exn).

Arguments StopIteration {R}.
Arguments Failure {R} x.

(** A generator object: its suspended body, or [None] once it has
    finished. *)
Definition Generator := option (Gen Event Result unit).

(** Calling a generator function runs none of its body. *)
Definition call_run (W : Collaborators) (self : Circleguard) (check : Check)
    (tr : list Event) : Generator * list Event :=
  (Some (run W self check), tr).

Fixpoint resume (g : Gen Event Result unit) (tr : list Event)
  : Pull Result * Generator * list Event :=
  match g with
  | Ret _ => (StopIteration, None, tr)
  | Raise x => (Failure x, None, tr)
  | Do e k => resume k (tr ++ [e])
  | Yield r k => (Got r, Some k, tr)
  end.

(** [next(gen)] *)
Definition next (gen : Generator) (tr : list Event)
  : Pull Result * Generator * list Event :=
  match gen with
  | None => (StopIteration, None, tr)
  | Some g => resume g tr
  end.

(** [gen.close()]: [GeneratorExit] is raised at the suspended [yield];
    the body of [run] has no [try] around any of them, so nothing more of
    it runs.  The detectors' generators reached through [yield from] are
    closed the same way; [Gen] has no [finally], so they are taken to run
    nothing on being closed either. *)
Definition close (gen : Generator) (tr : list Event)
  : Generator * list Event :=
  (None, tr).

(** [n] successive calls of [next]. *)
Fixpoint pulls (n : nat) (gen : Generator) (tr : list Event)
  : list (Pull Result) * Generator * list Event :=
  match n with
  | O => ([], gen, tr)
  | S m =>
      let '(p, gen1, tr1) := next gen tr in
      let '(ps, gen2, tr2) := pulls m gen1 tr1 in
      (p :: ps, gen2, tr2)
  end.

(** [list(gen)]: pull until the generator stops or fails. *)
Fixpoint drain (g : Gen Event Result unit) (tr : list Event)
  : list Result * End unit * list Event :=
  match g with
  | Ret a => ([], Returned a, tr)
  | Raise x => ([], Raised x, tr)
  | Do e k => drain k (tr ++ [e])
  | Yield r k =>
      let '(rs, fin, tr1) := drain k tr in
      (r :: rs, fin, tr1)
  end.

Definition list_of (gen : Generator) (tr : list Event)
  : list Result * End unit * list Event :=
  match gen with
  | None => ([], Returned tt, tr)
  | Some g => drain g tr
  end.

(** A consumer is a sequence of operations on the generator object. *)
Inductive Op : Type := OpNext | OpClose.

Fixpoint consume (ops : list Op) (gen : Generator) (tr : list Event)
  : Generator * list Event :=
  match ops with
  | [] => (gen, tr)
  | OpNext :: rest =>
      let '(_, gen1, tr1) := next gen tr in consume rest gen1 tr1
  | OpClose :: rest =>
      let '(gen1, tr1) := close gen tr in consume rest gen1 tr1
  end.

(** The number of [next] calls made before the first [close]. *)
Fixpoint requested (ops : list Op) : nat :=
  match ops with
  | [] => O
  | OpNext :: rest => S (requested rest)
  | OpClose :: _ => O
  end.

(** ** [Circleguard.set_options] *)

Inductive Value : Type :=
| VNone
| VBool (b : bool)
| VObject.

Definition is_None (v : Value) : bool :=
  match v with VNone => true | _ => false end.

Definition Value_of (o : option bool) : Value :=
  match o with None => VNone | Some b => VBool b end.

(** [locals()] on entry: the two parameters, in declaration order. *)
Definition set_options_locals (cache_arg : option bool)
  : list (string * Value) :=
  [("self", VObject); ("cache", Value_of cache_arg)].

Definition set_cache (self : Circleguard) (b : bool) : Circleguard :=
  mkCircleguard b (cacher self) (loader self) (slider_dir self) (library self).

Definition set_cacher (self : Circleguard) (cr : option Cacher) : Circleguard :=
  mkCircleguard (cache self) cr (loader self) (slider_dir self) (library self).

Definition set_should_cache (cr : Cacher) (b : bool) : Cacher :=
  mkCacher b (cacher_path cr).

(** The [for k, v in locals().items()] loop.  Returns the instance as the
    loop leaves it and the exception that ended it, if any. *)
Fixpoint set_options_loop (its : list (string * Value))
    (cache_arg : option bool) (self : Circleguard)
  : Circleguard * option Exn :=
  match its with
  | [] => (self, None)
  | (k, v) :: rest =>
      if is_None v || String.eqb k "self" then
        set_options_loop rest cache_arg self
      else if String.eqb k "cache" then
        match cache_arg with
        | Some b =>
            let self1 := set_cache self b in
            match cacher self1 with
            | None => (self1, Some (AttributeError "NoneType" "should_cache"))
            | Some cr =>
                set_options_loop rest cache_arg
                  (set_cacher self1 (Some (set_should_cache cr b)))
            end
        | None => set_options_loop rest cache_arg self
        end
      else set_options_loop rest cache_arg self
  end.

Definition set_options (self : Circleguard) (cache_arg : option bool)
  : Circleguard * option Exn :=
  set_options_loop (set_options_locals cache_arg) cache_arg self.

(** ** The detectors, as the specification describes them *)

Section SpecDetectors.

(** The two statistics; [None] stands for insufficient data. *)
Variable similarity_of : Replay -> Replay -> option Z.
Variable ur_of : Replay -> Beatmap -> option Z.

(** Every unordered pair of one list, once, in the list's order. *)
Fixpoint all_pairs (l : list Replay) : list (Replay * Replay) :=
  match l with
  | [] => []
  | x :: rest => map (pair x) rest ++ all_pairs rest
  end.

Definition comparer_pairs (cmp : Comparer) : list (Replay * Replay) :=
  match replays2 cmp with
  | None => all_pairs (replays1 cmp)
  | Some l2 => list_prod (replays1 cmp) l2
  end.

Definition steal_verdict (s : option Z) (thresh : Z) : bool :=
  match s with
  | Some v => thresh <=? v
  | None => false
  end.

Definition relax_verdict (u : option Z) (thresh : Z) : bool :=
  match u with
  | Some v => v <=? thresh
  | None => false
  end.

(** Modelled from the spec: [Comparer.compare] of [circleguard/comparer.py],
    which is not among the sources.  With no secondary set every unordered
    pair of the primary set is evaluated exactly once, with one every
    (primary, secondary) pair; each evaluation gives one result, in
    completion order; a pair is a candidate when its similarity is at or
    above the threshold. *)
Definition spec_compare (cmp : Comparer) : Gen Work Result unit :=
  for_each (comparer_pairs cmp) (fun p =>
    let s := similarity_of (fst p) (snd p) in
    Do (Compared (fst p) (snd p))
       (yield (ComparisonResult (fst p) (snd p) s (threshold cmp)
                 (steal_verdict s (threshold cmp))))).

(** Modelled from the spec: [Investigator.investigate] of
    [circleguard/investigator.py], which is not among the sources.  One
    replay gives exactly one result; it is a candidate when its deviation
    statistic is at or below the threshold. *)
Definition spec_investigate (inv : Investigator) : Gen Work Result unit :=
  let u := ur_of (inv_replay inv) (inv_beatmap inv) in
  Do (Investigated (inv_replay inv) (inv_beatmap inv))
     (yield (RelaxResult (inv_replay inv) u (inv_threshold inv)
               (relax_verdict u (inv_threshold inv)))).

End SpecDetectors.

(** The library connection a run works with: the instance's own, or the
    one it opens on its temporary directory. *)
Definition run_library (self : Circleguard) : option Library :=
  match library self with
  | Some l => Some l
  | None => option_map mkLibrary (slider_dir self)
  end.

(** The interactions that belong to the relax check. *)
Definition is_relax_event (e : Event) : bool :=
  match e with
  | LibraryCreateDb _ | LibraryOpen _ | LibraryLookup _ _ _ _
  | RelaxWork _ | LibraryClose _ => true
  | LogInfo _ | CheckLoad _ _ _ | StealWork _ => false
  end.

Definition is_steal_event (e : Event) : bool :=
  match e with
  | StealWork _ => true
  | _ => false
  end.

(** Opening or closing a library connection. *)
Definition is_open_close (e : Event) : bool :=
  match e with
  | LibraryCreateDb _ | LibraryOpen _ | LibraryClose _ => true
  | _ => false
  end.

Definition is_lookup (e : Event) : bool :=
  match e with
  | LibraryLookup _ _ _ _ => true
  | _ => false
  end.

(** The interactions a run makes around its replay loop. *)
Definition connect_events (self : Circleguard) (lib : Library) : list Event :=
  match library self with
  | None => [LibraryOpen (library_path lib)]
  | Some _ => []
  end.

Definition close_events (self : Circleguard) (lib : Library) : list Event :=
  match library self with
  | None => [LibraryClose lib]
  | Some _ => []
  end.

(** ** A concrete world, for evaluating the definitions *)

Definition demo_similarity (a b : Replay) : option Z :=
  Some (100 - Z.abs (replay_id a - replay_id b)).

Definition demo_ur (r : Replay) (bm : Beatmap) : option Z :=
  Some (10 * replay_id r).

(** Loading gives [rs]; the library knows the maps for which [known]
    holds; the detectors are the specification's. *)
Definition demo_world (rs : Replays) (known : Z -> bool) : Collaborators :=
  {| check_load := fun _ _ _ => inr rs;
     compare := spec_compare demo_similarity;
     investigate := spec_investigate demo_ur;
     library_lookup := fun _ m =>
       if known m then inr (mkBeatmap m) else inl (UnknownMap m);
     path_absolute := fun p => p;
     temporary_directory := "/tmp/slider" |}.

Definition demo_r1 : Replay := mkReplay 1 7.
Definition demo_r2 : Replay := mkReplay 2 7.
Definition demo_r3 : Replay := mkReplay 3 9.

Definition demo_replays : Replays := mkReplays [demo_r1; demo_r2; demo_r3] None.

Definition demo_check (fl : list DetectFlag) : Check :=
  mkCheck [1; 2; 3] None (mkDetect fl 95 50).

(** An instance made with no [db_path] and no [slider_dir] ... *)
Definition demo_temp (W : Collaborators) : Circleguard :=
  fst (Circleguard_init W "key" None None None true).

(** ... and one made with both. *)
Definition demo_kept (W : Collaborators) : Circleguard :=
  fst (Circleguard_init W "key" (Some "db") (Some "/maps") None true).

Definition all_known (m : Z) : bool := true.

(** ** [Circleguard.load] and [Circleguard.load_info] *)

(** The two methods of the objects handed to [load] and [load_info]:
    [loadable.load(loader, cache)] and [info_loadable.load_info(loader)].
    The loader comes with the cacher it shares with the instance. *)
Record Loading (L I : Type) : Type := mkLoading {
  loadable_load : Loader -> option Cacher -> bool -> L -> Exn + L;
  loadable_load_info : Loader -> option Cacher -> I -> Exn + I
}.

Definition Circleguard_load {L I} (K : Loading L I) (self : Circleguard)
    (loadable : L) : Exn + L :=
  loadable_load K (loader self) (cacher self) (cache self) loadable.

Definition Circleguard_load_info {L I} (K : Loading L I) (self : Circleguard)
    (info_loadable : I) : Exn + I :=
  loadable_load_info K (loader self) (cacher self) info_loadable.

(** Successive calls of the method [set_options], the caller going on
    after a call that raised. *)
Fixpoint set_options_calls (args : list (option bool)) (self : Circleguard)
  : Circleguard :=
  match args with
  | [] => self
  | a :: rest => set_options_calls rest (fst (set_options self a))
  end.

(** The last value that is not [None] among [args], or [b0]. *)
Fixpoint last_value {A} (args : list (option A)) (b0 : A) : A :=
  match args with
  | [] => b0
  | None :: rest => last_value rest b0
  | Some b :: rest => last_value rest b
  end.

(** ** The module function [set_options] *)

(** The level set on each logger, by name. *)
Definition Logging := string -> option Z.

(** [logging.getLogger(name).setLevel(level)] *)
Definition setLevel (name : string) (level : Z) (lg : Logging) : Logging :=
  fun n => if String.eqb n name then Some level else lg n.

Definition module_set_options (loglevel : option Z) (lg : Logging) : Logging :=
  match loglevel with
  | Some level => setLevel "circleguard" level lg
  | None => lg
  end.

Fixpoint module_set_options_calls (args : list (option Z)) (lg : Logging)
  : Logging :=
  match args with
  | [] => lg
  | a :: rest => module_set_options_calls rest (module_set_options a lg)
  end.

(** ** Reading the log of interactions *)

(** The pull on which a stream ends. *)
Definition last_pull (e : End unit) : Pull Result :=
  match e with
  | Returned _ => StopIteration
  | Raised x => Failure x
  end.

Definition is_close (e : Event) : bool :=
  match e with
  | LibraryClose _ => true
  | _ => false
  end.

(** Library connections opened, less those closed. *)
Definition open_delta (e : Event) : Z :=
  match e with
  | LibraryCreateDb _ | LibraryOpen _ => 1
  | LibraryClose _ => -1
  | _ => 0
  end.

Fixpoint open_connections (tr : list Event) : Z :=
  match tr with
  | [] => 0
  | e :: rest => open_delta e + open_connections rest
  end.

(** The discipline of a library connection, read along a log from the
    connection that is open at its start, if any: no connection is opened
    while one is open, and only the connection that is open is queried or
    closed.  [Some st] when the log keeps to it, [st] being the
    connection open at its end. *)
Definition Library_eqb (a b : Library) : bool :=
  String.eqb (library_path a) (library_path b).

Fixpoint library_session (st : option Library) (tr : list Event)
  : option (option Library) :=
  match tr with
  | [] => Some st
  | e :: rest =>
      match e with
      | LibraryCreateDb dir | LibraryOpen dir =>
          match st with
          | None => library_session (Some (mkLibrary dir)) rest
          | Some _ => None
          end
      | LibraryClose lib =>
          match st with
          | Some cur =>
              if Library_eqb cur lib then library_session None rest else None
          | None => None
          end
      | LibraryLookup lib _ _ _ =>
          match st with
          | Some cur =>
              if Library_eqb cur lib then library_session st rest else None
          | None => None
          end
      | LogInfo _ | CheckLoad _ _ _ | StealWork _ | RelaxWork _ =>
          library_session st rest
      end
  end.

(** ** The pipeline, step by step *)

(** The pipeline as the specification describes it, written from the
    collaborators alone, to be compared with [run]: the check is loaded;
    then each enabled detector runs in declaration order, its own steps
    taken in its own order and each of its results handed over where it
    yields it; the relax detector takes the replays one at a time, the
    lookup of a replay's map directly before the investigator's steps on
    that replay, between connecting to a temporary library and
    disconnecting from it.  A failure ends the list. *)
Section Pipeline.

Variable W : Collaborators.

Definition relax_steps (d : Detect) (lib : Library) (r : Replay)
  : list (Item Event Result) :=
  Ev (LibraryLookup lib (map_id r) true true) ::
  match library_lookup W lib (map_id r) with
  | inl _ => []
  | inr bm =>
      map (map_item RelaxWork)
        (items (investigate W (mkInvestigator r bm (ur_thresh d))))
  end.

Definition relax_steps_end (d : Detect) (lib : Library) (r : Replay)
  : End unit :=
  match library_lookup W lib (map_id r) with
  | inl x => Raised x
  | inr bm => finish (investigate W (mkInvestigator r bm (ur_thresh d)))
  end.

Fixpoint relax_loop_steps (d : Detect) (lib : Library)
    (after : list (Item Event Result)) (l : list Replay)
  : list (Item Event Result) :=
  match l with
  | [] => after
  | r :: rest =>
      relax_steps d lib r ++
      match relax_steps_end d lib r with
      | Returned _ => relax_loop_steps d lib after rest
      | Raised _ => []
      end
  end.

Definition steal_steps (d : Detect) (rs : Replays)
  : list (Item Event Result) :=
  if Detect_contains STEAL d then
    map (map_item StealWork)
      (items (compare W (mkComparer (steal_thresh d) (all_replays rs)
                           (all_replays2 rs))))
  else [].

Definition steal_steps_end (d : Detect) (rs : Replays) : End unit :=
  if Detect_contains STEAL d then
    finish (compare W (mkComparer (steal_thresh d) (all_replays rs)
                         (all_replays2 rs)))
  else Returned tt.

Definition relax_check_steps (self : Circleguard) (d : Detect) (rs : Replays)
  : list (Item Event Result) :=
  if Detect_contains RELAX d then
    match run_library self with
    | None => []
    | Some lib =>
        map Ev (connect_events self lib) ++
        relax_loop_steps d lib (map Ev (close_events self lib))
          (all_replays rs)
    end
  else [].

Definition pipeline_steps (self : Circleguard) (c : Check)
  : list (Item Event Result) :=
  Ev (LogInfo c) :: Ev (CheckLoad (loader self) (cacher self) c) ::
  match check_load W (loader self) (cacher self) c with
  | inl _ => []
  | inr rs =>
      steal_steps (detect c) rs ++
      match steal_steps_end (detect c) rs with
      | Returned _ => relax_check_steps self (detect c) rs
      | Raised _ => []
      end
  end.

End Pipeline.

(** Two more worlds: one whose loader fails, one whose comparer fails
    after its first result. *)
Definition demo_world_unloadable : Collaborators :=
  {| check_load := fun _ _ _ => inl UnavailableReplay;
     compare := spec_compare demo_similarity;
     investigate := spec_investigate demo_ur;
     library_lookup := fun _ m => inr (mkBeatmap m);
     path_absolute := fun p => p;
     temporary_directory := "/tmp/slider" |}.

Definition demo_world_failing_compare : Collaborators :=
  {| check_load := fun _ _ _ => inr demo_replays;
     compare := fun cmp =>
       Do (Compared demo_r1 demo_r2)
          (Yield (ComparisonResult demo_r1 demo_r2 (Some 99) (threshold cmp) true)
             (Raise RateLimited));
     investigate := spec_investigate demo_ur;
     library_lookup := fun _ m => inr (mkBeatmap m);
     path_absolute := fun p => p;
     temporary_directory := "/tmp/slider" |}.

Definition demo_loading : Loading Z Z :=
  {| loadable_load := fun _ _ use_cache x => if use_cache then inr x else inr (x + 1);
     loadable_load_info := fun _ _ x => inr x |}.

(** * Properties *)

(** ** Unfolding lemmas for generator bodies *)

Section GenFacts.

Context {E R : Type}.

Lemma items_bind {A B} (m : Gen E R A) (f : A -> Gen E R B) :
  items (bind m f) =
  items m ++ match finish m with
             | Returned a => items (f a)
             | Raised _ => []
             end.
Proof.
  induction m as [a | x | e k IH | r k IH]; simpl.
  - reflexivity.
  - reflexivity.
  - now rewrite IH.
  - now rewrite IH.
Qed.

Lemma finish_bind {A B} (m : Gen E R A) (f : A -> Gen E R B) :
  finish (bind m f) =
  match finish m with
  | Returned a => finish (f a)
  | Raised x => Raised x
  end.
Proof.
  induction m; simpl; auto.
Qed.

Lemma events_app (l1 l2 : list (Item E R)) :
  events (l1 ++ l2) = events l1 ++ events l2.
Proof.
  induction l1 as [| [e | r] l1 IH]; simpl; congruence.
Qed.

Lemma outputs_app (l1 l2 : list (Item E R)) :
  outputs (l1 ++ l2) = outputs l1 ++ outputs l2.
Proof.
  induction l1 as [| [e | r] l1 IH]; simpl; congruence.
Qed.

Lemma upto_0 (l : list (Item E R)) : upto 0 l = [].
Proof.
  destruct l as [| [e | r] l]; reflexivity.
Qed.

Lemma upto_app_le (n : nat) (l1 l2 : list (Item E R)) :
  (n <= List.length (outputs l1))%nat -> upto n (l1 ++ l2) = upto n l1.
Proof.
  revert n; induction l1 as [| [e | r] l1 IH]; intros n Hn; simpl in *.
  - assert (n = O) by lia; subst; apply upto_0.
  - destruct n; [reflexivity |]. now rewrite IH.
  - destruct n; [reflexivity |]. rewrite IH; [reflexivity | lia].
Qed.

Lemma upto_events_Forall (P : E -> Prop) (n : nat) (l : list (Item E R)) :
  Forall P (events l) -> Forall P (events (upto n l)).
Proof.
  revert n; induction l as [| [e | r] l IH]; intros n H; simpl in *.
  - constructor.
  - destruct n; simpl; [constructor |].
    inversion H; subst. constructor; auto.
  - destruct n; simpl; [constructor | auto].
Qed.

End GenFacts.

Lemma items_yield_from {E1 E2 R A} (inj : E1 -> E2) (sub : Gen E1 R A) :
  items (yield_from inj sub) = map (map_item inj) (items sub).
Proof.
  induction sub; simpl; congruence.
Qed.

Lemma finish_yield_from {E1 E2 R A} (inj : E1 -> E2) (sub : Gen E1 R A) :
  finish (yield_from inj sub) = finish sub.
Proof.
  induction sub; simpl; congruence.
Qed.

Lemma outputs_map_item {E1 E2 R} (inj : E1 -> E2) (l : list (Item E1 R)) :
  outputs (map (map_item inj) l) = outputs l.
Proof.
  induction l as [| [e | r] l IH]; simpl; congruence.
Qed.

Lemma events_map_item {E1 E2 R} (inj : E1 -> E2) (l : list (Item E1 R)) :
  events (map (map_item inj) l) = map inj (events l).
Proof.
  induction l as [| [e | r] l IH]; simpl; congruence.
Qed.

(** ** The consumer against the unfolding *)

Lemma resume_spec (g : Gen Event Result unit) (tr : list Event) :
  snd (resume g tr) = tr ++ events (upto 1 (items g)).
Proof.
  revert tr; induction g as [a | x | e k IH | r k IH]; intros tr; simpl.
  - now rewrite app_nil_r.
  - now rewrite app_nil_r.
  - rewrite IH, <- app_assoc. reflexivity.
  - rewrite upto_0. simpl. now rewrite app_nil_r.
Qed.

Lemma pulls_finished (n : nat) (tr : list Event) :
  pulls n None tr = (repeat StopIteration n, None, tr).
Proof.
  induction n as [| n IH]; simpl.
  - reflexivity.
  - now rewrite IH.
Qed.

Lemma pulls_Do (n : nat) (e : Event) (k : Gen Event Result unit)
    (tr : list Event) :
  pulls (S n) (Some (Do e k)) tr = pulls (S n) (Some k) (tr ++ [e]).
Proof.
  reflexivity.
Qed.

Lemma pulls_Yield (n : nat) (r : Result) (k : Gen Event Result unit)
    (tr : list Event) :
  pulls (S n) (Some (Yield r k)) tr =
  let '(ps, gen2, tr2) := pulls n (Some k) tr in (Got r :: ps, gen2, tr2).
Proof.
  reflexivity.
Qed.

Lemma pulls_trace (n : nat) (g : Gen Event Result unit) (tr : list Event) :
  snd (pulls n (Some g) tr) = tr ++ events (upto n (items g)).
Proof.
  revert g tr; induction n as [| n IH]; intros g tr.
  - simpl. now rewrite upto_0, app_nil_r.
  - revert tr; induction g as [a | x | e k IHg | r k IHg]; intros tr.
    + simpl. rewrite pulls_finished. simpl. now rewrite app_nil_r.
    + simpl. rewrite pulls_finished. simpl. now rewrite app_nil_r.
    + rewrite pulls_Do, IHg. simpl. now rewrite <- app_assoc.
    + rewrite pulls_Yield. specialize (IH k tr).
      destruct (pulls n (Some k) tr) as [[ps g2] tr2]. simpl in *. exact IH.
Qed.

Lemma pulls_results (n : nat) (g : Gen Event Result unit) (tr : list Event) :
  (n <= List.length (outputs (items g)))%nat ->
  fst (fst (pulls n (Some g) tr)) = map (@Got Result) (firstn n (outputs (items g))).
Proof.
  revert g tr; induction n as [| n IH]; intros g tr Hn.
  - reflexivity.
  - revert tr; induction g as [a | x | e k IHg | r k IHg]; intros tr;
      simpl in Hn.
    + lia.
    + lia.
    + rewrite pulls_Do. now apply IHg.
    + rewrite pulls_Yield. assert (Hk : (n <= List.length (outputs (items k)))%nat) by lia.
      specialize (IH k tr Hk).
      destruct (pulls n (Some k) tr) as [[ps g2] tr2]. simpl in *.
      now rewrite IH.
Qed.

Lemma drain_spec (g : Gen Event Result unit) (tr : list Event) :
  drain g tr = (outputs (items g), finish g, tr ++ events (items g)).
Proof.
  revert tr; induction g as [a | x | e k IH | r k IH]; intros tr; simpl.
  - now rewrite app_nil_r.
  - now rewrite app_nil_r.
  - rewrite IH, <- app_assoc. reflexivity.
  - now rewrite IH.
Qed.

Lemma next_trace (g : Gen Event Result unit) (tr : list Event) :
  snd (next (Some g) tr) = tr ++ events (upto 1 (items g)).
Proof.
  apply resume_spec.
Qed.

Lemma consume_finished (ops : list Op) (tr : list Event) :
  consume ops None tr = (None, tr).
Proof.
  induction ops as [| [|] ops IH]; simpl; auto.
Qed.

Lemma consume_trace (ops : list Op) (g : Gen Event Result unit)
    (tr : list Event) :
  snd (consume ops (Some g) tr) =
  tr ++ events (upto (requested ops) (items g)).
Proof.
  revert g tr; induction ops as [| [|] ops IH]; intros g tr.
  - simpl. now rewrite upto_0, app_nil_r.
  - revert tr; induction g as [a | x | e k IHg | r k IHg]; intros tr.
    + simpl. rewrite consume_finished. simpl. now rewrite app_nil_r.
    + simpl. rewrite consume_finished. simpl. now rewrite app_nil_r.
    + change (consume (OpNext :: ops) (Some (Do e k)) tr)
        with (consume (OpNext :: ops) (Some k) (tr ++ [e])).
      rewrite IHg. simpl. now rewrite <- app_assoc.
    + simpl. apply IH.
  - simpl. rewrite consume_finished. simpl.
    now rewrite upto_0, app_nil_r.
Qed.

(** ** The unfolding of [run] *)

Section RunFacts.

Variable W : Collaborators.

Lemma items_run (self : Circleguard) (c : Check) :
  items (run W self c) =
  Ev (LogInfo c) :: Ev (CheckLoad (loader self) (cacher self) c) ::
  match check_load W (loader self) (cacher self) c with
  | inl _ => []
  | inr rs =>
      items (steal_check W (detect c) rs) ++
      match finish (steal_check W (detect c) rs) with
      | Returned _ => items (relax_check W self (detect c) rs)
      | Raised _ => []
      end
  end.
Proof.
  unfold run, load, perform. simpl.
  destruct (check_load W (loader self) (cacher self) c) as [x | rs]; simpl.
  - reflexivity.
  - now rewrite items_bind.
Qed.

Lemma finish_run (self : Circleguard) (c : Check) :
  finish (run W self c) =
  match check_load W (loader self) (cacher self) c with
  | inl x => Raised x
  | inr rs =>
      match finish (steal_check W (detect c) rs) with
      | Returned _ => finish (relax_check W self (detect c) rs)
      | Raised x => Raised x
      end
  end.
Proof.
  unfold run, load, perform. simpl.
  destruct (check_load W (loader self) (cacher self) c) as [x | rs]; simpl.
  - reflexivity.
  - now rewrite finish_bind.
Qed.

Lemma items_steal_check (d : Detect) (rs : Replays) :
  items (steal_check W d rs) =
  if Detect_contains STEAL d then
    map (map_item StealWork)
      (items (compare W (mkComparer (steal_thresh d) (all_replays rs)
                           (all_replays2 rs))))
  else [].
Proof.
  unfold steal_check. destruct (Detect_contains STEAL d).
  - apply items_yield_from.
  - reflexivity.
Qed.

Lemma steal_check_events (d : Detect) (rs : Replays) :
  Forall (fun e => is_steal_event e = true)
    (events (items (steal_check W d rs))).
Proof.
  rewrite items_steal_check. destruct (Detect_contains STEAL d).
  - rewrite events_map_item. apply Forall_forall. intros e He.
    apply in_map_iff in He. destruct He as [w [<- _]]. reflexivity.
  - constructor.
Qed.

Lemma items_relax_replay (d : Detect) (lib : Library) (r : Replay) :
  items (relax_replay W d lib r) =
  Ev (LibraryLookup lib (map_id r) true true) ::
  match library_lookup W lib (map_id r) with
  | inl _ => []
  | inr bm =>
      map (map_item RelaxWork)
        (items (investigate W (mkInvestigator r bm (ur_thresh d))))
  end.
Proof.
  unfold relax_replay, lookup_by_id. simpl.
  destruct (library_lookup W lib (map_id r)); simpl.
  - reflexivity.
  - now rewrite items_yield_from.
Qed.

Lemma finish_relax_replay (d : Detect) (lib : Library) (r : Replay) :
  finish (relax_replay W d lib r) =
  match library_lookup W lib (map_id r) with
  | inl x => Raised x
  | inr bm => finish (investigate W (mkInvestigator r bm (ur_thresh d)))
  end.
Proof.
  unfold relax_replay, lookup_by_id. simpl.
  destruct (library_lookup W lib (map_id r)); simpl.
  - reflexivity.
  - now rewrite finish_yield_from.
Qed.

Lemma items_relax_check (self : Circleguard) (d : Detect) (rs : Replays)
    (lib : Library) :
  Detect_contains RELAX d = true ->
  run_library self = Some lib ->
  items (relax_check W self d rs) =
  map Ev (connect_events self lib) ++
  items (for_each (all_replays rs) (relax_replay W d lib)) ++
  match finish (for_each (all_replays rs) (relax_replay W d lib)) with
  | Returned _ => map Ev (close_events self lib)
  | Raised _ => []
  end.
Proof.
  intros Hd Hl. unfold relax_check, run_library, connect_events, close_events in *.
  rewrite Hd. destruct (library self) as [l |].
  - inversion Hl; subst. simpl. rewrite items_bind.
    destruct (finish (for_each (all_replays rs) (relax_replay W d lib)));
      simpl; now rewrite ?app_nil_r.
  - unfold library_connect. destruct (slider_dir self) as [dir |];
      simpl in Hl; [| discriminate].
    inversion Hl; subst. simpl. rewrite items_bind.
    destruct (finish (for_each (all_replays rs)
                        (relax_replay W d (mkLibrary dir)))); reflexivity.
Qed.

Lemma finish_relax_check (self : Circleguard) (d : Detect) (rs : Replays)
    (lib : Library) :
  Detect_contains RELAX d = true ->
  run_library self = Some lib ->
  finish (relax_check W self d rs) =
  finish (for_each (all_replays rs) (relax_replay W d lib)).
Proof.
  intros Hd Hl. unfold relax_check, run_library in *.
  rewrite Hd. destruct (library self) as [l |].
  - inversion Hl; subst. simpl. rewrite finish_bind.
    now destruct (finish (for_each (all_replays rs) (relax_replay W d lib)))
      as [[] |].
  - unfold library_connect. destruct (slider_dir self) as [dir |];
      simpl in Hl; [| discriminate].
    inversion Hl; subst. simpl. rewrite finish_bind.
    now destruct (finish (for_each (all_replays rs)
                            (relax_replay W d (mkLibrary dir)))) as [[] |].
Qed.

Lemma items_relax_check_off (self : Circleguard) (d : Detect) (rs : Replays) :
  Detect_contains RELAX d = false ->
  relax_check W self d rs = Ret tt.
Proof.
  intros Hd. unfold relax_check. now rewrite Hd.
Qed.

End RunFacts.

Section ForEach.

Context {E R X : Type}.
Variable body : X -> Gen E R unit.

Lemma items_for_each_cons (x : X) (xs : list X) :
  items (for_each (x :: xs) body) =
  items (body x) ++ match finish (body x) with
                    | Returned _ => items (for_each xs body)
                    | Raised _ => []
                    end.
Proof.
  simpl. apply items_bind.
Qed.

Lemma finish_for_each_cons (x : X) (xs : list X) :
  finish (for_each (x :: xs) body) =
  match finish (body x) with
  | Returned _ => finish (for_each xs body)
  | Raised e => Raised e
  end.
Proof.
  simpl. apply finish_bind.
Qed.

Lemma items_for_each_app (pre post : list X) :
  Forall (fun y => finish (body y) = Returned tt) pre ->
  items (for_each (pre ++ post) body) =
  flat_map (fun y => items (body y)) pre ++ items (for_each post body).
Proof.
  induction 1 as [| y pre Hy _ IH].
  - reflexivity.
  - cbn [app flat_map]. rewrite items_for_each_cons, Hy, IH.
    now rewrite app_assoc.
Qed.

Lemma finish_for_each_app (pre post : list X) :
  Forall (fun y => finish (body y) = Returned tt) pre ->
  finish (for_each (pre ++ post) body) = finish (for_each post body).
Proof.
  induction 1 as [| y pre Hy _ IH].
  - reflexivity.
  - cbn [app]. now rewrite finish_for_each_cons, Hy.
Qed.

End ForEach.

(** ** Laziness *)

(** C9: calling [run(check)] builds the generator object and does nothing
    else: the log of interactions is unchanged, a consumer that closes the
    generator without pulling never causes the check to be loaded, and the
    loader is reached (after the log line) by the first [next]. *)
Theorem run_call_defers_loading (W : Collaborators) (self : Circleguard)
    (c : Check) (tr : list Event) (ops : list Op) :
  call_run W self c tr = (Some (run W self c), tr) /\
  snd (consume (OpClose :: ops) (fst (call_run W self c tr)) tr) = tr /\
  exists rest,
    snd (next (fst (call_run W self c tr)) tr) =
    tr ++ LogInfo c :: CheckLoad (loader self) (cacher self) c :: rest.
Proof.
  split; [reflexivity |]. split.
  - simpl. now rewrite consume_finished.
  - unfold call_run, fst. rewrite next_trace, items_run. simpl.
    eexists. reflexivity.
Qed.

(** ** No detector enabled *)

(** C5: when the check enables no detector, the stream over any loaded
    replay set yields nothing and ends normally: the first [next] is
    [StopIteration], after the log line and the loading only. *)
Theorem run_no_detector (W : Collaborators) (self : Circleguard)
    (c : Check) (rs : Replays) (tr : list Event) :
  flags (detect c) = [] ->
  check_load W (loader self) (cacher self) c = inr rs ->
  list_of (fst (call_run W self c tr)) tr =
    ([], Returned tt,
     tr ++ [LogInfo c; CheckLoad (loader self) (cacher self) c]) /\
  next (fst (call_run W self c tr)) tr =
    (StopIteration, None,
     tr ++ [LogInfo c; CheckLoad (loader self) (cacher self) c]).
Proof.
  intros Hf Hl. unfold call_run, fst, list_of, next, run, load, perform.
  simpl. rewrite Hl. simpl.
  unfold steal_check, relax_check, Detect_contains. rewrite Hf. simpl.
  rewrite <- app_assoc. split; reflexivity.
Qed.

Lemma run_no_detector_witness :
  let W := demo_world demo_replays all_known in
  let c := demo_check [] in
  flags (detect c) = [] /\
  check_load W (loader (demo_temp W)) (cacher (demo_temp W)) c =
    inr demo_replays /\
  list_of (fst (call_run W (demo_temp W) c [])) [] =
    ([], Returned tt,
     [LogInfo c; CheckLoad (mkLoader None "key") None c]) /\
  next (fst (call_run W (demo_temp W) c [])) [] =
    (StopIteration, None,
     [LogInfo c; CheckLoad (mkLoader None "key") None c]).
Proof.
  intros W c.
  refine (conj eq_refl (conj eq_refl _)).
  exact (@run_no_detector W (demo_temp W) c demo_replays [] eq_refl eq_refl).
Defined.

(** ** Relax not enabled *)

(** C8: when the relax detector is not enabled, no consumer can make
    [run] touch the beatmap library: nothing it performs is a library
    connection, lookup or close, nor relax work; what it performs is the
    log line, the loading and, only when steal is enabled, the comparer's
    work. *)
Theorem run_without_relax (W : Collaborators) (self : Circleguard)
    (c : Check) (tr : list Event) (ops : list Op) :
  Detect_contains RELAX (detect c) = false ->
  exists es,
    snd (consume ops (fst (call_run W self c tr)) tr) = tr ++ es /\
    Forall (fun e =>
              is_relax_event e = false /\
              implb (is_steal_event e) (Detect_contains STEAL (detect c)) = true)
           es.
Proof.
  intros Hd. unfold call_run, fst. rewrite consume_trace.
  eexists; split; [reflexivity |].
  apply upto_events_Forall. rewrite items_run. simpl.
  constructor; [now split |]. constructor; [now split |].
  destruct (check_load W (loader self) (cacher self) c) as [x | rs].
  - constructor.
  - rewrite items_relax_check_off by assumption. simpl.
    assert (Hs : Forall
                   (fun e => is_relax_event e = false /\
                             implb (is_steal_event e)
                               (Detect_contains STEAL (detect c)) = true)
                   (events (items (steal_check W (detect c) rs)))).
    { rewrite items_steal_check.
      destruct (Detect_contains STEAL (detect c)); [| constructor].
      rewrite events_map_item. apply Forall_forall. intros e He.
      apply in_map_iff in He. destruct He as [w [<- _]]. now split. }
    destruct (finish (steal_check W (detect c) rs));
      now rewrite app_nil_r.
Qed.

Lemma run_without_relax_witness :
  let W := demo_world demo_replays all_known in
  let c := demo_check [STEAL] in
  Detect_contains RELAX (detect c) = false /\
  exists es,
    snd (consume [OpNext; OpNext] (fst (call_run W (demo_temp W) c [])) []) =
      [] ++ es /\
    Forall (fun e =>
              is_relax_event e = false /\
              implb (is_steal_event e) (Detect_contains STEAL (detect c)) = true)
           es.
Proof.
  intros W c.
  refine (conj eq_refl _).
  exact (@run_without_relax W (demo_temp W) c [] [OpNext; OpNext] eq_refl).
Defined.

(** ** Empty replay set *)

Lemma spec_compare_empty (sim : Replay -> Replay -> option Z) (th : Z)
    (second : option (list Replay)) :
  spec_compare sim (mkComparer th [] second) = Ret tt.
Proof.
  unfold spec_compare, comparer_pairs. simpl. now destruct second.
Qed.

Lemma init_run_library (W : Collaborators) (key : string)
    (db_path sd : option Path) (ld : option string) (c0 : bool) :
  run_library (fst (Circleguard_init W key db_path sd ld c0)) =
  Some (mkLibrary match sd with
                  | Some dir => dir
                  | None => temporary_directory W
                  end).
Proof.
  now destruct sd.
Qed.

(** C6: with the comparer of the specification, a run whose loaded replay
    set is empty yields nothing and ends normally, whichever detectors are
    enabled; all it performs after loading is, when relax is enabled on an
    instance with a temporary library, opening and closing that library. *)
Theorem run_no_replays (W : Collaborators)
    (sim : Replay -> Replay -> option Z) (self : Circleguard) (c : Check)
    (rs : Replays) (lib : Library) (tr : list Event) :
  (forall cmp, compare W cmp = spec_compare sim cmp) ->
  check_load W (loader self) (cacher self) c = inr rs ->
  all_replays rs = [] ->
  run_library self = Some lib ->
  list_of (fst (call_run W self c tr)) tr =
    ([], Returned tt,
     tr ++ [LogInfo c; CheckLoad (loader self) (cacher self) c] ++
     if Detect_contains RELAX (detect c)
     then connect_events self lib ++ close_events self lib
     else []).
Proof.
  intros Hc Hl He Hlib. unfold call_run, fst, list_of.
  rewrite drain_spec, items_run, finish_run, Hl.
  assert (Hs : steal_check W (detect c) rs = Ret tt).
  { unfold steal_check. destruct (Detect_contains STEAL (detect c)); auto.
    now rewrite Hc, He, spec_compare_empty. }
  rewrite Hs. simpl.
  destruct (Detect_contains RELAX (detect c)) eqn:Hd.
  - rewrite (@items_relax_check W self (detect c) rs lib Hd Hlib),
      (@finish_relax_check W self (detect c) rs lib Hd Hlib), He. simpl.
    rewrite !events_app.
    assert (Hev : forall l : list Event,
               events (map (@Ev Event Result) l) = l).
    { induction l; simpl; congruence. }
    assert (Ho : forall l : list Event,
               outputs (map (@Ev Event Result) l) = []).
    { induction l; simpl; congruence. }
    rewrite !outputs_app, !Hev, !Ho. reflexivity.
  - rewrite items_relax_check_off by assumption. reflexivity.
Qed.

Lemma run_no_replays_witness :
  let W := demo_world (mkReplays [] None) all_known in
  (forall cmp, compare W cmp = spec_compare demo_similarity cmp) /\
  check_load W (loader (demo_temp W)) (cacher (demo_temp W))
    (demo_check [STEAL; RELAX]) = inr (mkReplays [] None) /\
  all_replays (mkReplays [] None) = [] /\
  run_library (demo_temp W) = Some (mkLibrary "/tmp/slider") /\
  list_of (fst (call_run W (demo_temp W) (demo_check [STEAL; RELAX]) [])) [] =
    ([], Returned tt,
     [LogInfo (demo_check [STEAL; RELAX]);
      CheckLoad (mkLoader None "key") None (demo_check [STEAL; RELAX]);
      LibraryOpen "/tmp/slider"; LibraryClose (mkLibrary "/tmp/slider")]).
Proof.
  intro W.
  assert (H1 : forall cmp, compare W cmp = spec_compare demo_similarity cmp)
    by reflexivity.
  refine (conj H1 (conj eq_refl (conj eq_refl (conj eq_refl _)))).
  exact (@run_no_replays W demo_similarity (demo_temp W)
           (demo_check [STEAL; RELAX]) (mkReplays [] None)
           (mkLibrary "/tmp/slider") [] H1 eq_refl eq_refl eq_refl).
Defined.

(** ** [set_options] *)


(** ** Steal before relax *)

Lemma outputs_run_both (W : Collaborators) (self : Circleguard) (c : Check)
    (rs : Replays) :
  Detect_contains STEAL (detect c) = true ->
  check_load W (loader self) (cacher self) c = inr rs ->
  let cmp := mkComparer (steal_thresh (detect c)) (all_replays rs)
               (all_replays2 rs) in
  exists rest,
    items (run W self c) =
      (Ev (LogInfo c) :: Ev (CheckLoad (loader self) (cacher self) c) ::
       map (map_item StealWork) (items (compare W cmp))) ++ rest /\
    outputs rest =
      match finish (compare W cmp) with
      | Returned _ => outputs (items (relax_check W self (detect c) rs))
      | Raised _ => []
      end.
Proof.
  intros Hs Hl cmp. rewrite items_run, Hl, items_steal_check, Hs.
  unfold steal_check. rewrite Hs, finish_yield_from. fold cmp.
  eexists; split; [reflexivity |].
  now destruct (finish (compare W cmp)).
Qed.

(** C1, amended: with both detectors enabled, the results of a run are the
    comparer's results followed by the relax results, and as long as the
    consumer has asked for no more results than the comparer yields, it
    has received exactly the comparer's first results and nothing of the
    relax check has been performed: no library connection, lookup or
    close, and no investigation.  With [n = 1]: when the comparer yields
    anything, its first result is seen before relax starts. *)
Theorem run_steal_before_relax (W : Collaborators) (self : Circleguard)
    (c : Check) (rs : Replays) (tr : list Event) (n : nat) :
  Detect_contains STEAL (detect c) = true ->
  Detect_contains RELAX (detect c) = true ->
  check_load W (loader self) (cacher self) c = inr rs ->
  let cmp := mkComparer (steal_thresh (detect c)) (all_replays rs)
               (all_replays2 rs) in
  let steal := outputs (items (compare W cmp)) in
  (n <= List.length steal)%nat ->
  outputs (items (run W self c)) =
    steal ++ match finish (compare W cmp) with
             | Returned _ => outputs (items (relax_check W self (detect c) rs))
             | Raised _ => []
             end /\
  fst (fst (pulls n (fst (call_run W self c tr)) tr)) =
    map (@Got Result) (firstn n steal) /\
  exists es,
    snd (pulls n (fst (call_run W self c tr)) tr) = tr ++ es /\
    Forall (fun e => is_relax_event e = false) es.
Proof.
  intros Hs Hr Hl cmp steal Hn.
  destruct (outputs_run_both W self c Hs Hl) as [rest [Hi Ho]].
  fold cmp in Hi, Ho.
  assert (Hout : outputs (items (run W self c)) = steal ++ outputs rest).
  { rewrite Hi, outputs_app. simpl. now rewrite outputs_map_item. }
  split; [now rewrite Hout, Ho |].
  change (fst (call_run W self c tr)) with (Some (run W self c)). split.
  - rewrite pulls_results by (rewrite Hout, length_app; lia).
    rewrite Hout, firstn_app.
    replace (n - List.length steal)%nat with O by lia.
    now rewrite firstn_O, app_nil_r.
  - rewrite pulls_trace. eexists; split; [reflexivity |].
    rewrite Hi, upto_app_le
      by (simpl; rewrite outputs_map_item; exact Hn).
    apply upto_events_Forall. simpl.
    constructor; [reflexivity |]. constructor; [reflexivity |].
    rewrite events_map_item. apply Forall_forall. intros e He.
    apply in_map_iff in He. destruct He as [w [<- _]]. reflexivity.
Qed.

Lemma run_steal_before_relax_witness :
  let W := demo_world demo_replays all_known in
  let c := demo_check [STEAL; RELAX] in
  Detect_contains STEAL (detect c) = true /\
  Detect_contains RELAX (detect c) = true /\
  check_load W (loader (demo_temp W)) (cacher (demo_temp W)) c =
    inr demo_replays /\
  (1 <= List.length
          (outputs (items (compare W
             (mkComparer (steal_thresh (detect c)) (all_replays demo_replays)
                (all_replays2 demo_replays))))))%nat /\
  fst (fst (pulls 1 (fst (call_run W (demo_temp W) c [])) [])) =
    [Got (ComparisonResult demo_r1 demo_r2 (Some 99) 95 true)] /\
  exists es,
    snd (pulls 1 (fst (call_run W (demo_temp W) c [])) []) = [] ++ es /\
    Forall (fun e => is_relax_event e = false) es.
Proof.
  intros W c.
  assert (Hn : (1 <= List.length
                       (outputs (items (compare W
                          (mkComparer (steal_thresh (detect c))
                             (all_replays demo_replays)
                             (all_replays2 demo_replays))))))%nat).
  { vm_compute. repeat constructor. }
  refine (conj eq_refl (conj eq_refl (conj eq_refl (conj Hn _)))).
  exact (proj2 (@run_steal_before_relax W (demo_temp W) c demo_replays [] 1%nat
                  eq_refl eq_refl eq_refl Hn)).
Defined.

(** ** The replay loop of the relax check *)

Lemma events_map_Ev {E R} (l : list E) : events (map (@Ev E R) l) = l.
Proof.
  induction l; simpl; congruence.
Qed.

Lemma outputs_map_Ev {E R} (l : list E) : outputs (map (@Ev E R) l) = [].
Proof.
  induction l; simpl; congruence.
Qed.

Lemma events_flat_map {E R X} (f : X -> list (Item E R)) (l : list X) :
  events (flat_map f l) = flat_map (fun x => events (f x)) l.
Proof.
  induction l as [| x l IH]; simpl.
  - reflexivity.
  - now rewrite events_app, IH.
Qed.

Lemma outputs_flat_map {E R X} (f : X -> list (Item E R)) (l : list X) :
  outputs (flat_map f l) = flat_map (fun x => outputs (f x)) l.
Proof.
  induction l as [| x l IH]; simpl.
  - reflexivity.
  - now rewrite outputs_app, IH.
Qed.

Lemma for_each_events_Forall {E R X} (P : E -> Prop)
    (body : X -> Gen E R unit) (l : list X) :
  (forall x, Forall P (events (items (body x)))) ->
  Forall P (events (items (for_each l body))).
Proof.
  intros Hb. induction l as [| x l IH].
  - constructor.
  - rewrite items_for_each_cons, events_app. apply Forall_app. split.
    + apply Hb.
    + destruct (finish (body x)); [exact IH | constructor].
Qed.

Section RelaxLoop.

Variable W : Collaborators.
Variable d : Detect.
Variable lib : Library.

Lemma relax_replay_events (r : Replay) :
  exists ws,
    events (items (relax_replay W d lib r)) =
    LibraryLookup lib (map_id r) true true :: map RelaxWork ws.
Proof.
  rewrite items_relax_replay. simpl.
  destruct (library_lookup W lib (map_id r)) as [x | bm].
  - now exists [].
  - rewrite events_map_item. eexists. reflexivity.
Qed.

Lemma relax_replay_no_open_close (r : Replay) :
  Forall (fun e => is_open_close e = false)
    (events (items (relax_replay W d lib r))).
Proof.
  destruct (relax_replay_events r) as [ws ->].
  constructor; [reflexivity |].
  apply Forall_forall. intros e He.
  apply in_map_iff in He. destruct He as [w [<- _]]. reflexivity.
Qed.

Lemma relax_replay_lookups (r : Replay) :
  filter is_lookup (events (items (relax_replay W d lib r))) =
  [LibraryLookup lib (map_id r) true true].
Proof.
  destruct (relax_replay_events r) as [ws ->]. simpl. f_equal.
  induction ws; simpl; auto.
Qed.

(** A loop that runs to its end has looked up every replay's map, in
    order. *)
Lemma relax_loop_lookups (l : list Replay) :
  finish (for_each l (relax_replay W d lib)) = Returned tt ->
  filter is_lookup (events (items (for_each l (relax_replay W d lib)))) =
  map (fun r => LibraryLookup lib (map_id r) true true) l.
Proof.
  induction l as [| r l IH]; intros Hf.
  - reflexivity.
  - rewrite finish_for_each_cons in Hf.
    rewrite items_for_each_cons, events_app, filter_app, relax_replay_lookups.
    destruct (finish (relax_replay W d lib r)); [| discriminate].
    simpl. now rewrite IH.
Qed.

End RelaxLoop.

Lemma steal_check_lookups (W : Collaborators) (d : Detect) (rs : Replays) :
  filter is_lookup (events (items (steal_check W d rs))) = [].
Proof.
  pose proof (steal_check_events W d rs) as H.
  induction H as [| e l He _ IH]; simpl.
  - reflexivity.
  - destruct e; simpl in *; try discriminate. exact IH.
Qed.

Lemma steal_check_no_open_close (W : Collaborators) (d : Detect)
    (rs : Replays) :
  Forall (fun e => is_open_close e = false)
    (events (items (steal_check W d rs))).
Proof.
  eapply Forall_impl; [| apply steal_check_events].
  intros e He. destruct e; simpl in *; try discriminate; reflexivity.
Qed.

(** A run that ends normally went through the whole of both checks. *)
Lemma events_run_returned (W : Collaborators) (self : Circleguard)
    (c : Check) (rs : Replays) (lib : Library) :
  Detect_contains RELAX (detect c) = true ->
  check_load W (loader self) (cacher self) c = inr rs ->
  run_library self = Some lib ->
  finish (run W self c) = Returned tt ->
  finish (for_each (all_replays rs) (relax_replay W (detect c) lib)) =
    Returned tt /\
  events (items (run W self c)) =
    (LogInfo c :: CheckLoad (loader self) (cacher self) c ::
     events (items (steal_check W (detect c) rs))) ++
    connect_events self lib ++
    events (items (for_each (all_replays rs) (relax_replay W (detect c) lib)))
    ++ close_events self lib.
Proof.
  intros Hd Hl Hlib Hf. rewrite finish_run, Hl in Hf.
  rewrite items_run, Hl.
  destruct (finish (steal_check W (detect c) rs)) as [[] | x];
    [| discriminate].
  rewrite (@finish_relax_check W self (detect c) rs lib Hd Hlib) in Hf.
  rewrite (@items_relax_check W self (detect c) rs lib Hd Hlib), Hf.
  split; [reflexivity |]. simpl.
  now rewrite !events_app, !events_map_Ev.
Qed.

(** ** Beatmap lookups *)

(** C7, refuted as stated: two replays of one map make two lookup
    requests for that map, not one. *)
Lemma run_lookup_per_map_counterexample :
  let rs := mkReplays [demo_r1; demo_r2] None in
  let W := demo_world rs all_known in
  let tr := snd (list_of (fst (call_run W (demo_temp W)
                                 (demo_check [RELAX]) [])) []) in
  nodup Z.eq_dec (map map_id (all_replays rs)) = [7] /\
  filter is_lookup tr =
    [LibraryLookup (mkLibrary "/tmp/slider") 7 true true;
     LibraryLookup (mkLibrary "/tmp/slider") 7 true true] /\
  List.length (filter is_lookup tr) <>
  List.length (nodup Z.eq_dec (map map_id (all_replays rs))).
Proof.
  vm_compute. repeat split; discriminate.
Qed.

(** ** The library connection *)

(** C2, refuted as stated.  On an instance with a temporary library, a
    consumer that takes one relax result and closes the stream leaves the
    connection opened by the run open; on an instance with its own
    library, a fully drained run neither opens nor closes anything. *)
Lemma run_library_release_counterexample :
  let W := demo_world demo_replays all_known in
  (let st := consume [OpNext; OpClose]
               (fst (call_run W (demo_temp W) (demo_check [RELAX]) [])) [] in
   fst st = None /\
   filter is_open_close (snd st) = [LibraryOpen "/tmp/slider"]) /\
  (let out := list_of (fst (call_run W (demo_kept W)
                              (demo_check [RELAX]) [])) [] in
   snd (fst out) = Returned tt /\
   filter is_open_close (snd out) = []).
Proof.
  vm_compute. repeat split.
Qed.

(** ** A failing lookup *)

(** C3, refuted as stated: the first replay's map is unknown to the
    library, the second one's is known; the first [next] raises
    [UnknownMap], the generator is finished, and the second replay is
    neither looked up nor investigated. *)
Lemma run_unknown_map_counterexample :
  let rs := mkReplays [demo_r1; demo_r3] None in
  let W := demo_world rs (fun m => negb (m =? 7)) in
  let c := demo_check [RELAX] in
  library_lookup W (mkLibrary "/tmp/slider") (map_id demo_r3) =
    inr (mkBeatmap 9) /\
  pulls 2 (fst (call_run W (demo_temp W) c [])) [] =
    ([Failure (UnknownMap 7); StopIteration], None,
     [LogInfo c; CheckLoad (mkLoader None "key") None c;
      LibraryOpen "/tmp/slider";
      LibraryLookup (mkLibrary "/tmp/slider") 7 true true]).
Proof.
  vm_compute. split; reflexivity.
Qed.

(** C3, amended: when the library fails for the map of one replay, the
    failure ends the run.  The consumer receives the steal results and
    the results of the replays before the failing one, then the library's
    exception; the failing lookup is the last thing the run does, so the
    replays after it are neither looked up nor investigated. *)
Theorem run_lookup_failure_propagates (W : Collaborators)
    (self : Circleguard) (c : Check) (rs : Replays) (lib : Library)
    (pre post : list Replay) (r : Replay) (x : Exn) (tr : list Event) :
  Detect_contains RELAX (detect c) = true ->
  check_load W (loader self) (cacher self) c = inr rs ->
  run_library self = Some lib ->
  finish (steal_check W (detect c) rs) = Returned tt ->
  all_replays rs = pre ++ r :: post ->
  Forall (fun y => finish (relax_replay W (detect c) lib y) = Returned tt)
    pre ->
  library_lookup W lib (map_id r) = inl x ->
  list_of (fst (call_run W self c tr)) tr =
    (outputs (items (steal_check W (detect c) rs)) ++
     flat_map (fun y => outputs (items (relax_replay W (detect c) lib y))) pre,
     Raised x,
     tr ++
     [LogInfo c; CheckLoad (loader self) (cacher self) c] ++
     events (items (steal_check W (detect c) rs)) ++
     connect_events self lib ++
     flat_map (fun y => events (items (relax_replay W (detect c) lib y))) pre ++
     [LibraryLookup lib (map_id r) true true]).
Proof.
  intros Hd Hl Hlib Hs Hsplit Hpre Hx.
  change (fst (call_run W self c tr)) with (Some (run W self c)).
  unfold list_of. rewrite drain_spec, items_run, finish_run, Hl, Hs.
  rewrite (@finish_relax_check W self (detect c) rs lib Hd Hlib).
  rewrite (@items_relax_check W self (detect c) rs lib Hd Hlib).
  rewrite Hsplit, (finish_for_each_app _ (r :: post) Hpre).
  rewrite (items_for_each_app _ (r :: post) Hpre).
  rewrite finish_for_each_cons, items_for_each_cons.
  rewrite finish_relax_replay, items_relax_replay, Hx.
  cbn [outputs events app].
  rewrite !outputs_app, !events_app, !outputs_flat_map, !events_flat_map.
  rewrite outputs_map_Ev, events_map_Ev.
  cbn [outputs events app]. rewrite !app_nil_r.
  reflexivity.
Qed.

Lemma run_lookup_failure_propagates_witness :
  let rs := mkReplays [demo_r3; demo_r1; demo_r2] None in
  let W := demo_world rs (fun m => negb (m =? 7)) in
  let c := demo_check [STEAL; RELAX] in
  let lib := mkLibrary "/tmp/slider" in
  Detect_contains RELAX (detect c) = true /\
  check_load W (loader (demo_temp W)) (cacher (demo_temp W)) c = inr rs /\
  run_library (demo_temp W) = Some lib /\
  finish (steal_check W (detect c) rs) = Returned tt /\
  all_replays rs = [demo_r3] ++ demo_r1 :: [demo_r2] /\
  Forall (fun y => finish (relax_replay W (detect c) lib y) = Returned tt)
    [demo_r3] /\
  library_lookup W lib (map_id demo_r1) = inl (UnknownMap 7) /\
  fst (list_of (fst (call_run W (demo_temp W) c [])) []) =
    ([ComparisonResult demo_r3 demo_r1 (Some 98) 95 true;
      ComparisonResult demo_r3 demo_r2 (Some 99) 95 true;
      ComparisonResult demo_r1 demo_r2 (Some 99) 95 true;
      RelaxResult demo_r3 (Some 30) 50 true],
     Raised (UnknownMap 7)).
Proof.
  intros rs W c lib.
  assert (Hpre : Forall (fun y => finish (relax_replay W (detect c) lib y)
                                  = Returned tt) [demo_r3])
    by (constructor; [reflexivity | constructor]).
  refine (conj eq_refl (conj eq_refl (conj eq_refl (conj eq_refl
           (conj eq_refl (conj Hpre (conj eq_refl _))))))).
  exact (f_equal fst
           (@run_lookup_failure_propagates W (demo_temp W) c rs lib
              [demo_r3] [demo_r2] demo_r1 (UnknownMap 7) []
              eq_refl eq_refl eq_refl eq_refl eq_refl Hpre eq_refl)).
Defined.

(** * Further properties of [run] *)

(** ** Failures before and in the steal check *)

(** When [c.load] raises, the run is over before any detector starts: the
    first [next] raises the loader's exception, nothing is yielded, and
    the log holds the log line and the load only. *)
Theorem run_load_failure (W : Collaborators) (self : Circleguard)
    (c : Check) (x : Exn) (tr : list Event) :
  check_load W (loader self) (cacher self) c = inl x ->
  next (fst (call_run W self c tr)) tr =
    (Failure x, None,
     tr ++ [LogInfo c; CheckLoad (loader self) (cacher self) c]) /\
  list_of (fst (call_run W self c tr)) tr =
    ([], Raised x,
     tr ++ [LogInfo c; CheckLoad (loader self) (cacher self) c]).
Proof.
  intros Hl. unfold call_run, fst, list_of, next, run, load, perform.
  simpl. rewrite Hl. simpl. rewrite <- app_assoc. split; reflexivity.
Qed.

Lemma run_load_failure_witness :
  let W := demo_world_unloadable in
  let c := demo_check [STEAL; RELAX] in
  check_load W (loader (demo_temp W)) (cacher (demo_temp W)) c =
    inl UnavailableReplay /\
  list_of (fst (call_run W (demo_temp W) c [])) [] =
    ([], Raised UnavailableReplay,
     [LogInfo c; CheckLoad (mkLoader None "key") None c]).
Proof.
  intros W c. refine (conj eq_refl _).
  exact (proj2 (@run_load_failure W (demo_temp W) c UnavailableReplay []
                  eq_refl)).
Defined.

(** [run] has a branch for [STEAL] and one for [RELAX] and none for any
    other flag: a check that enables neither of the two, whatever else it
    enables, yields nothing and ends on the first [next]. *)
Theorem run_other_flags_ignored (W : Collaborators) (self : Circleguard)
    (c : Check) (rs : Replays) (tr : list Event) :
  Detect_contains STEAL (detect c) = false ->
  Detect_contains RELAX (detect c) = false ->
  check_load W (loader self) (cacher self) c = inr rs ->
  next (fst (call_run W self c tr)) tr =
    (StopIteration, None,
     tr ++ [LogInfo c; CheckLoad (loader self) (cacher self) c]).
Proof.
  intros Hs Hr Hl. unfold call_run, fst, next, run, load, perform.
  simpl. rewrite Hl. simpl. unfold steal_check, relax_check.
  rewrite Hs, Hr. simpl. now rewrite <- app_assoc.
Qed.

Lemma run_other_flags_ignored_witness :
  let W := demo_world demo_replays all_known in
  let c := demo_check [CORRECTION] in
  Detect_contains STEAL (detect c) = false /\
  Detect_contains RELAX (detect c) = false /\
  check_load W (loader (demo_temp W)) (cacher (demo_temp W)) c =
    inr demo_replays /\
  next (fst (call_run W (demo_temp W) c [])) [] =
    (StopIteration, None,
     [LogInfo c; CheckLoad (mkLoader None "key") None c]).
Proof.
  intros W c. refine (conj eq_refl (conj eq_refl (conj eq_refl _))).
  exact (@run_other_flags_ignored W (demo_temp W) c demo_replays []
           eq_refl eq_refl eq_refl).
Defined.

(** When the comparer raises, the relax check never starts: the consumer
    gets the comparer's results and then its exception, and nothing in
    the log belongs to the relax check; the library is not even opened. *)
Theorem run_steal_failure (W : Collaborators) (self : Circleguard)
    (c : Check) (rs : Replays) (x : Exn) (tr : list Event) :
  Detect_contains STEAL (detect c) = true ->
  check_load W (loader self) (cacher self) c = inr rs ->
  let cmp := mkComparer (steal_thresh (detect c)) (all_replays rs)
               (all_replays2 rs) in
  finish (compare W cmp) = Raised x ->
  exists es,
    list_of (fst (call_run W self c tr)) tr =
      (outputs (items (compare W cmp)), Raised x, tr ++ es) /\
    Forall (fun e => is_relax_event e = false) es.
Proof.
  intros Hs Hl cmp Hx.
  change (fst (call_run W self c tr)) with (Some (run W self c)).
  unfold list_of. rewrite drain_spec, items_run, finish_run, Hl.
  rewrite items_steal_check, Hs. unfold steal_check.
  rewrite Hs, finish_yield_from. fold cmp. rewrite Hx, app_nil_r.
  cbn [outputs events]. rewrite outputs_map_item, events_map_item.
  eexists; split; [reflexivity |].
  constructor; [reflexivity |]. constructor; [reflexivity |].
  apply Forall_forall. intros e He.
  apply in_map_iff in He. destruct He as [w [<- _]]. reflexivity.
Qed.

Lemma run_steal_failure_witness :
  let W := demo_world_failing_compare in
  let c := demo_check [STEAL; RELAX] in
  Detect_contains STEAL (detect c) = true /\
  check_load W (loader (demo_temp W)) (cacher (demo_temp W)) c =
    inr demo_replays /\
  finish (compare W (mkComparer (steal_thresh (detect c))
                       (all_replays demo_replays)
                       (all_replays2 demo_replays))) = Raised RateLimited /\
  exists es,
    list_of (fst (call_run W (demo_temp W) c [])) [] =
      ([ComparisonResult demo_r1 demo_r2 (Some 99) 95 true],
       Raised RateLimited, [] ++ es) /\
    Forall (fun e => is_relax_event e = false) es.
Proof.
  intros W c. refine (conj eq_refl (conj eq_refl (conj eq_refl _))).
  exact (@run_steal_failure W (demo_temp W) c demo_replays RateLimited []
           eq_refl eq_refl eq_refl).
Defined.

(** ** When the library is closed *)

Lemma upto_prefix {E R} (n : nat) (l : list (Item E R)) :
  exists rest, l = upto n l ++ rest.
Proof.
  revert n; induction l as [| [e | r] l IH]; intros n; simpl.
  - now exists [].
  - destruct n; [now eexists |].
    destruct (IH (S n)) as [rest Hr]. exists rest. simpl. now f_equal.
  - destruct n; [now eexists |].
    destruct (IH n) as [rest Hr]. exists rest. simpl. now f_equal.
Qed.

Lemma no_open_close_no_close (l : list Event) :
  Forall (fun e => is_open_close e = false) l ->
  Forall (fun e => is_close e = false) l.
Proof.
  apply Forall_impl. intros e He. destruct e; simpl in *; congruence.
Qed.

(** [library.close()] can only be the last thing a run does, and a run
    that ends by raising does not do it. *)
Lemma run_close_last (W : Collaborators) (self : Circleguard) (c : Check) :
  exists l1 tl,
    items (run W self c) = l1 ++ map Ev tl /\
    Forall (fun e => is_close e = false) (events l1) /\
    (forall x, finish (run W self c) = Raised x -> tl = []).
Proof.
  rewrite items_run, finish_run.
  destruct (check_load W (loader self) (cacher self) c) as [x | rs].
  - exists [Ev (LogInfo c); Ev (CheckLoad (loader self) (cacher self) c)], [].
    split; [reflexivity |]. split; [| reflexivity].
    repeat constructor.
  - pose proof (no_open_close_no_close
                  (steal_check_no_open_close W (detect c) rs)) as Hst.
    destruct (finish (steal_check W (detect c) rs)) as [[] | x].
    2:{ exists (Ev (LogInfo c) ::
                Ev (CheckLoad (loader self) (cacher self) c) ::
                items (steal_check W (detect c) rs)), [].
        split; [simpl; now rewrite ?app_nil_r |].
        split; [| reflexivity]. simpl.
        constructor; [reflexivity |]. constructor; [reflexivity |].
        exact Hst. }
    destruct (Detect_contains RELAX (detect c)) eqn:Hd.
    2:{ rewrite items_relax_check_off by assumption. simpl.
        exists (Ev (LogInfo c) ::
                Ev (CheckLoad (loader self) (cacher self) c) ::
                items (steal_check W (detect c) rs)), [].
        split; [simpl; now rewrite ?app_nil_r |].
        split; [| reflexivity]. simpl.
        constructor; [reflexivity |]. constructor; [reflexivity |].
        exact Hst. }
    destruct (run_library self) as [lib |] eqn:Hlib.
    + rewrite (@items_relax_check W self (detect c) rs lib Hd Hlib),
        (@finish_relax_check W self (detect c) rs lib Hd Hlib).
      exists (Ev (LogInfo c) :: Ev (CheckLoad (loader self) (cacher self) c) ::
              items (steal_check W (detect c) rs) ++
              map Ev (connect_events self lib) ++
              items (for_each (all_replays rs)
                       (relax_replay W (detect c) lib))).
      exists (match finish (for_each (all_replays rs)
                              (relax_replay W (detect c) lib)) with
              | Returned _ => close_events self lib
              | Raised _ => []
              end).
      split; [| split].
      * simpl. rewrite <- !app_assoc. do 4 f_equal.
        now destruct (finish (for_each (all_replays rs)
                                (relax_replay W (detect c) lib))).
      * simpl. constructor; [reflexivity |]. constructor; [reflexivity |].
        rewrite !events_app, events_map_Ev.
        apply Forall_app; split; [exact Hst |].
        apply Forall_app; split.
        -- unfold connect_events. destruct (library self);
             repeat constructor.
        -- apply no_open_close_no_close, for_each_events_Forall,
             relax_replay_no_open_close.
      * intros x Hx. now rewrite Hx.
    + assert (Hraise : relax_check W self (detect c) rs =
                       Raise (AttributeError "Circleguard" "slider_dir")).
      { unfold relax_check, run_library, library_connect in *. rewrite Hd.
        destruct (library self); [discriminate |].
        destruct (slider_dir self); [discriminate | reflexivity]. }
      rewrite Hraise. simpl.
      exists (Ev (LogInfo c) ::
              Ev (CheckLoad (loader self) (cacher self) c) ::
              items (steal_check W (detect c) rs)), [].
      split; [simpl; now rewrite ?app_nil_r |].
      split; [| reflexivity]. simpl.
      constructor; [reflexivity |]. constructor; [reflexivity |].
      exact Hst.
Qed.

(** Receiving the last result does not close the library.  As long as
    the consumer has called [next] no more often than the run has results
    (so never the once more that would return [StopIteration]), no
    [library.close()] has been performed, whether or not it then closes
    the generator. *)
Theorem run_close_needs_final_pull (W : Collaborators) (self : Circleguard)
    (c : Check) (ops : list Op) :
  (requested ops <= List.length (outputs (items (run W self c))))%nat ->
  Forall (fun e => is_close e = false)
    (snd (consume ops (fst (call_run W self c [])) [])).
Proof.
  intros Hn.
  change (fst (call_run W self c [])) with (Some (run W self c)).
  rewrite consume_trace. cbn [app].
  destruct (run_close_last W self c) as [l1 [tl [Hi [Hl1 _]]]].
  rewrite Hi in *. rewrite outputs_app, outputs_map_Ev, app_nil_r in Hn.
  rewrite upto_app_le by exact Hn.
  now apply upto_events_Forall.
Qed.

Lemma run_close_needs_final_pull_witness :
  let W := demo_world demo_replays all_known in
  let c := demo_check [RELAX] in
  (requested [OpNext; OpNext; OpNext] <=
   List.length (outputs (items (run W (demo_temp W) c))))%nat /\
  Forall (fun e => is_close e = false)
    (snd (consume [OpNext; OpNext; OpNext]
            (fst (call_run W (demo_temp W) c [])) [])).
Proof.
  intros W c.
  assert (Hn : (requested [OpNext; OpNext; OpNext] <=
                List.length (outputs (items (run W (demo_temp W) c))))%nat).
  { vm_compute. repeat constructor. }
  refine (conj Hn _).
  exact (@run_close_needs_final_pull W (demo_temp W) c
           [OpNext; OpNext; OpNext] Hn).
Defined.

(** A run that ends by raising, from the loader, a detector or the
    library, never closes the library, whatever the consumer does. *)
Theorem run_failure_never_closes (W : Collaborators) (self : Circleguard)
    (c : Check) (x : Exn) (ops : list Op) :
  finish (run W self c) = Raised x ->
  Forall (fun e => is_close e = false)
    (snd (consume ops (fst (call_run W self c [])) [])).
Proof.
  intros Hx.
  change (fst (call_run W self c [])) with (Some (run W self c)).
  rewrite consume_trace. cbn [app].
  destruct (run_close_last W self c) as [l1 [tl [Hi [Hl1 Htl]]]].
  rewrite Hi, (Htl x Hx). cbn [map]. rewrite app_nil_r.
  now apply upto_events_Forall.
Qed.

Lemma run_failure_never_closes_witness :
  let rs := mkReplays [demo_r1; demo_r3] None in
  let W := demo_world rs (fun m => negb (m =? 9)) in
  let c := demo_check [RELAX] in
  finish (run W (demo_temp W) c) = Raised (UnknownMap 9) /\
  Forall (fun e => is_close e = false)
    (snd (consume [OpNext; OpNext; OpNext]
            (fst (call_run W (demo_temp W) c [])) [])).
Proof.
  intros rs W c. refine (conj eq_refl _).
  exact (@run_failure_never_closes W (demo_temp W) c (UnknownMap 9)
           [OpNext; OpNext; OpNext] eq_refl).
Defined.

(** ** The order of the lookups *)

Lemma firstn_prefix {A} (l1 l2 m : list A) (k : nat) :
  l1 ++ l2 = firstn k m -> l1 = firstn (List.length l1) m.
Proof.
  intros H.
  assert (Hle : (List.length l1 <= k)%nat).
  { pose proof (firstn_le_length k m) as Hk. rewrite <- H in Hk.
    rewrite length_app in Hk.
    assert (Hk' : (List.length (firstn k m) <= k)%nat).
    { clear. revert m. induction k; intros [| a m]; simpl; try lia.
      specialize (IHk m). lia. }
    rewrite <- H, length_app in Hk'. lia. }
  assert (H1 : firstn (List.length l1) (l1 ++ l2) = l1).
  { rewrite firstn_app, Nat.sub_diag, firstn_all. simpl.
    now rewrite app_nil_r. }
  rewrite H, firstn_firstn in H1.
  now rewrite Nat.min_l in H1 by exact Hle.
Qed.

Lemma relax_loop_lookups_prefix (W : Collaborators) (d : Detect)
    (lib : Library) (l : list Replay) :
  exists k,
    filter is_lookup (events (items (for_each l (relax_replay W d lib)))) =
    firstn k (map (fun r => LibraryLookup lib (map_id r) true true) l).
Proof.
  induction l as [| r l [k IH]].
  - now exists O.
  - rewrite items_for_each_cons, events_app, filter_app, relax_replay_lookups.
    destruct (finish (relax_replay W d lib r)).
    + exists (S k). simpl. now rewrite IH.
    + now exists 1%nat.
Qed.

Lemma run_lookups_prefix (W : Collaborators) (self : Circleguard) (c : Check)
    (rs : Replays) (lib : Library) :
  check_load W (loader self) (cacher self) c = inr rs ->
  run_library self = Some lib ->
  exists k,
    filter is_lookup (events (items (run W self c))) =
    firstn k (map (fun r => LibraryLookup lib (map_id r) true true)
                (all_replays rs)).
Proof.
  intros Hl Hlib. rewrite items_run, Hl. cbn [events filter is_lookup].
  rewrite events_app, filter_app, steal_check_lookups. cbn [app].
  destruct (finish (steal_check W (detect c) rs)); [| now exists O].
  destruct (Detect_contains RELAX (detect c)) eqn:Hd.
  - rewrite (@items_relax_check W self (detect c) rs lib Hd Hlib).
    rewrite !events_app, !filter_app, events_map_Ev.
    destruct (relax_loop_lookups_prefix W (detect c) lib (all_replays rs))
      as [k Hk].
    exists k. rewrite Hk.
    assert (H1 : filter is_lookup (connect_events self lib) = [])
      by (unfold connect_events; now destruct (library self)).
    assert (H2 : filter is_lookup (close_events self lib) = [])
      by (unfold close_events; now destruct (library self)).
    rewrite H1.
    destruct (finish (for_each (all_replays rs)
                        (relax_replay W (detect c) lib))).
    + rewrite events_map_Ev, H2. simpl. now rewrite app_nil_r.
    + simpl. now rewrite app_nil_r.
  - rewrite items_relax_check_off by assumption. now exists O.
Qed.

(** At every moment of a run, whatever the consumer has done, the lookups
    made so far are those of an initial segment of [all_replays()], in
    that order, one per replay, all on the run's one library connection
    and all with [download=True, save=True].  So no map is looked up for
    a replay of the second set only, and none out of turn. *)
Theorem run_lookups_in_replay_order (W : Collaborators) (self : Circleguard)
    (c : Check) (rs : Replays) (lib : Library) (ops : list Op) :
  check_load W (loader self) (cacher self) c = inr rs ->
  run_library self = Some lib ->
  exists k,
    filter is_lookup (snd (consume ops (fst (call_run W self c [])) [])) =
    firstn k (map (fun r => LibraryLookup lib (map_id r) true true)
                (all_replays rs)).
Proof.
  intros Hl Hlib.
  change (fst (call_run W self c [])) with (Some (run W self c)).
  rewrite consume_trace. cbn [app].
  destruct (run_lookups_prefix W self c Hl Hlib) as [k Hk].
  destruct (upto_prefix (requested ops) (items (run W self c))) as [rest Hr].
  rewrite Hr, events_app, filter_app in Hk.
  eexists. eapply firstn_prefix. exact Hk.
Qed.

Lemma run_lookups_in_replay_order_witness :
  let W := demo_world demo_replays all_known in
  let c := demo_check [STEAL; RELAX] in
  let lib := mkLibrary "/maps" in
  check_load W (loader (demo_kept W)) (cacher (demo_kept W)) c =
    inr demo_replays /\
  run_library (demo_kept W) = Some lib /\
  exists k,
    filter is_lookup
      (snd (consume [OpNext; OpNext; OpNext; OpNext; OpNext; OpClose]
              (fst (call_run W (demo_kept W) c [])) [])) =
    firstn k (map (fun r => LibraryLookup lib (map_id r) true true)
                (all_replays demo_replays)).
Proof.
  intros W c lib. refine (conj eq_refl (conj eq_refl _)).
  exact (@run_lookups_in_replay_order W (demo_kept W) c demo_replays lib
           [OpNext; OpNext; OpNext; OpNext; OpNext; OpClose]
           eq_refl eq_refl).
Defined.

(** ** Connections over the life of an instance *)

Lemma open_connections_app (l1 l2 : list Event) :
  open_connections (l1 ++ l2) = open_connections l1 + open_connections l2.
Proof.
  induction l1 as [| e l1 IH]; simpl; [reflexivity | lia].
Qed.

Lemma open_connections_quiet (l : list Event) :
  Forall (fun e => is_open_close e = false) l -> open_connections l = 0.
Proof.
  induction 1 as [| e l He _ IH]; simpl.
  - reflexivity.
  - rewrite IH. destruct e; simpl in *; congruence.
Qed.

(** A run that ends normally has closed what it opened. *)
Lemma run_returned_balanced (W : Collaborators) (self : Circleguard)
    (c : Check) :
  finish (run W self c) = Returned tt ->
  open_connections (events (items (run W self c))) = 0.
Proof.
  intros Hf.
  destruct (check_load W (loader self) (cacher self) c) as [x | rs] eqn:Hl.
  { rewrite finish_run, Hl in Hf. discriminate. }
  destruct (Detect_contains RELAX (detect c)) eqn:Hd.
  - destruct (run_library self) as [lib |] eqn:Hlib.
    + destruct (events_run_returned W self c Hd Hl Hlib Hf) as [_ ->].
      rewrite !open_connections_app.
      rewrite (@open_connections_quiet (_ :: _ :: _)).
      2:{ constructor; [reflexivity |]. constructor; [reflexivity |].
          apply steal_check_no_open_close. }
      rewrite (@open_connections_quiet (events _))
        by (apply for_each_events_Forall, relax_replay_no_open_close).
      unfold connect_events, close_events.
      now destruct (library self).
    + exfalso. rewrite finish_run, Hl in Hf.
      destruct (finish (steal_check W (detect c) rs)); [| discriminate].
      unfold relax_check, run_library, library_connect in *.
      rewrite Hd in Hf.
      destruct (library self); [discriminate |].
      destruct (slider_dir self); discriminate.
  - rewrite items_run, Hl, items_relax_check_off by assumption.
    apply open_connections_quiet. simpl.
    constructor; [reflexivity |]. constructor; [reflexivity |].
    rewrite events_app. apply Forall_app; split.
    + apply steal_check_no_open_close.
    + destruct (finish (steal_check W (detect c) rs)); constructor.
Qed.

(** From construction to the normal end of a run: an instance made
    without [slider_dir] has no library connection open (the database it
    created and the connection the run opened are both closed again); an
    instance made with a [slider_dir] has exactly the one it opened when
    constructed, which [run] leaves open. *)
Theorem init_then_run_connections (W : Collaborators) (key : string)
    (db_path sd : option Path) (ld : option string) (c0 : bool)
    (c : Check) :
  let self := fst (Circleguard_init W key db_path sd ld c0) in
  let tr0 := snd (Circleguard_init W key db_path sd ld c0) in
  finish (run W self c) = Returned tt ->
  open_connections (snd (list_of (fst (call_run W self c tr0)) tr0)) =
  match sd with
  | None => 0
  | Some _ => 1
  end.
Proof.
  intros self tr0 Hf.
  change (fst (call_run W self c tr0)) with (Some (run W self c)).
  unfold list_of. rewrite drain_spec. cbn [snd].
  rewrite open_connections_app, (run_returned_balanced W self c Hf).
  subst tr0. now destruct sd.
Qed.

Lemma init_then_run_connections_witness :
  let W := demo_world demo_replays all_known in
  let c := demo_check [STEAL; RELAX] in
  let self := fst (Circleguard_init W "key" None None None true) in
  let tr0 := snd (Circleguard_init W "key" None None None true) in
  finish (run W self c) = Returned tt /\
  open_connections (snd (list_of (fst (call_run W self c tr0)) tr0)) = 0.
Proof.
  intros W c self tr0. refine (conj eq_refl _).
  exact (@init_then_run_connections W "key" None None None true c eq_refl).
Defined.

(** * Properties of [set_options], [load] and [load_info] *)

Lemma set_options_fst (self : Circleguard) (a : option bool) :
  fst (set_options self a) =
  match a with
  | None => self
  | Some b =>
      mkCircleguard b
        (option_map (fun cr => set_should_cache cr b) (cacher self))
        (loader self) (slider_dir self) (library self)
  end.
Proof.
  destruct self as [b0 [cr |] l s lib], a as [b |]; reflexivity.
Qed.

Lemma set_options_calls_record (args : list (option bool))
    (self : Circleguard) :
  set_options_calls args self =
  mkCircleguard (last_value args (cache self))
    (option_map (fun cr => mkCacher (last_value args (should_cache cr))
                             (cacher_path cr))
       (cacher self))
    (loader self) (slider_dir self) (library self).
Proof.
  revert self; induction args as [| a args IH]; intros self.
  - destruct self as [b0 [[sc pth] |] l s lib]; reflexivity.
  - cbn [set_options_calls]. rewrite IH, set_options_fst.
    destruct a as [b |]; [| reflexivity].
    destruct self as [b0 [[sc pth] |] l s lib]; reflexivity.
Qed.

(** After any sequence of [set_options] calls, those that raised
    included, [self.cache] holds the last value passed that was not
    [None] (its first value if there was none), the cacher, when there is
    one, holds the same in [should_cache], and the loader, the temporary
    directory, the library and the cacher's path are what they were. *)
Theorem set_options_calls_effect (args : list (option bool))
    (self : Circleguard) :
  let self' := set_options_calls args self in
  cache self' = last_value args (cache self) /\
  option_map should_cache (cacher self') =
    option_map (fun cr => last_value args (should_cache cr)) (cacher self) /\
  option_map cacher_path (cacher self') =
    option_map cacher_path (cacher self) /\
  loader self' = loader self /\
  slider_dir self' = slider_dir self /\
  library self' = library self.
Proof.
  intros self'. subst self'. rewrite set_options_calls_record.
  destruct (cacher self); repeat split.
Qed.

(** On an instance made by the constructor, [self.cache] and the
    cacher's [should_cache] agree, and go on agreeing through any
    sequence of [set_options] calls. *)
Theorem init_cache_agrees (W : Collaborators) (key : string)
    (db_path sd : option Path) (ld : option string) (c0 : bool)
    (args : list (option bool)) :
  let self :=
    set_options_calls args (fst (Circleguard_init W key db_path sd ld c0)) in
  option_map should_cache (cacher self) =
  option_map (fun _ => cache self) (cacher self).
Proof.
  intros self. subst self. rewrite set_options_calls_record.
  destruct db_path, sd; reflexivity.
Qed.

(** On an instance without a cacher every [set_options(cache=b)] raises,
    and none of them changes what [run] or [load_info] do: neither reads
    [self.cache]. *)
Theorem set_options_without_cacher_inert (W : Collaborators)
    (self : Circleguard) (c : Check) (args : list (option bool))
    (I : Type) (K : Loading Z I) (y : I) :
  cacher self = None ->
  run W (set_options_calls args self) c = run W self c /\
  Circleguard_load_info K (set_options_calls args self) y =
    Circleguard_load_info K self y.
Proof.
  intros Hc. rewrite set_options_calls_record.
  destruct self as [b0 cr l s lib]. simpl in Hc. subst cr.
  split; reflexivity.
Qed.

Lemma set_options_without_cacher_inert_witness :
  let W := demo_world demo_replays all_known in
  let c := demo_check [STEAL; RELAX] in
  cacher (demo_temp W) = None /\
  run W (set_options_calls [Some false; None; Some true] (demo_temp W)) c =
    run W (demo_temp W) c /\
  Circleguard_load_info demo_loading
    (set_options_calls [Some false; None; Some true] (demo_temp W)) 5 =
    Circleguard_load_info demo_loading (demo_temp W) 5.
Proof.
  intros W c. refine (conj eq_refl _).
  exact (@set_options_without_cacher_inert W (demo_temp W) c
           [Some false; None; Some true] Z demo_loading 5 eq_refl).
Defined.

(** [load] passes to the loadable, as [cache], the last value given to
    [set_options], also when that call raised for want of a cacher; the
    loader it passes shares a cacher whose [should_cache] is that value
    too. *)
Theorem load_uses_last_cache (L I : Type) (K : Loading L I)
    (self : Circleguard) (args : list (option bool)) (x : L) :
  Circleguard_load K (set_options_calls args self) x =
  loadable_load K (loader self)
    (option_map (fun cr => mkCacher (last_value args (should_cache cr))
                             (cacher_path cr))
       (cacher self))
    (last_value args (cache self)) x.
Proof.
  unfold Circleguard_load. rewrite set_options_calls_record. reflexivity.
Qed.

(** * The module function [set_options] *)

(** After any sequence of calls, the level of the logger [circleguard] is
    the last one passed that was not [None] (what it was before if there
    was none), and the level of every other logger is what it was. *)
Theorem module_set_options_calls_effect (args : list (option Z))
    (lg : Logging) (n : string) :
  module_set_options_calls args lg n =
  if String.eqb n "circleguard"
  then last_value (map (option_map Some) args) (lg n)
  else lg n.
Proof.
  revert lg; induction args as [| a args IH]; intros lg.
  - simpl. now destruct (String.eqb n "circleguard").
  - cbn [module_set_options_calls map]. rewrite IH.
    destruct a as [level |]; cbn [module_set_options option_map last_value].
    + unfold setLevel. now destruct (String.eqb n "circleguard").
    + reflexivity.
Qed.

(** * What a drained run returns *)

Lemma for_each_returned {E R X} (body : X -> Gen E R unit) (l : list X) :
  finish (for_each l body) = Returned tt ->
  outputs (items (for_each l body)) =
  flat_map (fun y => outputs (items (body y))) l.
Proof.
  induction l as [| y l IH]; intros Hf.
  - reflexivity.
  - rewrite finish_for_each_cons in Hf.
    rewrite items_for_each_cons, outputs_app.
    destruct (finish (body y)); [| discriminate].
    simpl. now rewrite IH.
Qed.

(** The results of a run that ends normally, in the order the consumer
    receives them: when steal is enabled, what the comparer yields for
    the check's two replay sets; then, when relax is enabled, for each
    replay of [all_replays()] in turn, what the investigator yields for
    that replay with the beatmap the library returned for its map.
    Nothing else, and nothing twice. *)
Theorem run_results (W : Collaborators) (self : Circleguard) (c : Check)
    (rs : Replays) (lib : Library) (tr : list Event) :
  check_load W (loader self) (cacher self) c = inr rs ->
  run_library self = Some lib ->
  finish (run W self c) = Returned tt ->
  fst (fst (list_of (fst (call_run W self c tr)) tr)) =
  (if Detect_contains STEAL (detect c)
   then outputs (items (compare W
                  (mkComparer (steal_thresh (detect c)) (all_replays rs)
                     (all_replays2 rs))))
   else []) ++
  (if Detect_contains RELAX (detect c)
   then flat_map
          (fun r =>
             match library_lookup W lib (map_id r) with
             | inl _ => []
             | inr bm =>
                 outputs (items (investigate W
                            (mkInvestigator r bm (ur_thresh (detect c)))))
             end)
          (all_replays rs)
   else []).
Proof.
  intros Hl Hlib Hf.
  change (fst (call_run W self c tr)) with (Some (run W self c)).
  unfold list_of. rewrite drain_spec. cbn [fst].
  rewrite finish_run, Hl in Hf. rewrite items_run, Hl.
  cbn [outputs].
  destruct (finish (steal_check W (detect c) rs)) as [[] | x];
    [| discriminate].
  rewrite outputs_app. f_equal.
  - rewrite items_steal_check.
    destruct (Detect_contains STEAL (detect c)); [| reflexivity].
    apply outputs_map_item.
  - destruct (Detect_contains RELAX (detect c)) eqn:Hd.
    + rewrite (@finish_relax_check W self (detect c) rs lib Hd Hlib) in Hf.
      rewrite (@items_relax_check W self (detect c) rs lib Hd Hlib), Hf.
      rewrite !outputs_app, !outputs_map_Ev, app_nil_r. cbn [app].
      rewrite (for_each_returned _ _ Hf).
      apply flat_map_ext. intros r. rewrite items_relax_replay.
      cbn [outputs].
      destruct (library_lookup W lib (map_id r)); [reflexivity |].
      apply outputs_map_item.
    + now rewrite items_relax_check_off by assumption.
Qed.

Lemma run_results_witness :
  let W := demo_world demo_replays all_known in
  let c := demo_check [STEAL; RELAX] in
  check_load W (loader (demo_temp W)) (cacher (demo_temp W)) c =
    inr demo_replays /\
  run_library (demo_temp W) = Some (mkLibrary "/tmp/slider") /\
  finish (run W (demo_temp W) c) = Returned tt /\
  fst (fst (list_of (fst (call_run W (demo_temp W) c [])) [])) =
    [ComparisonResult demo_r1 demo_r2 (Some 99) 95 true;
     ComparisonResult demo_r1 demo_r3 (Some 98) 95 true;
     ComparisonResult demo_r2 demo_r3 (Some 99) 95 true] ++
    [RelaxResult demo_r1 (Some 10) 50 true;
     RelaxResult demo_r2 (Some 20) 50 true;
     RelaxResult demo_r3 (Some 30) 50 true].
Proof.
  intros W c. refine (conj eq_refl (conj eq_refl (conj eq_refl _))).
  exact (@run_results W (demo_temp W) c demo_replays
           (mkLibrary "/tmp/slider") [] eq_refl eq_refl eq_refl).
Defined.

(** * [run] against the pipeline *)

Lemma relax_loop_items (W : Collaborators) (d : Detect) (lib : Library)
    (after : list (Item Event Result)) (l : list Replay) :
  items (for_each l (relax_replay W d lib)) ++
  match finish (for_each l (relax_replay W d lib)) with
  | Returned _ => after
  | Raised _ => []
  end =
  relax_loop_steps W d lib after l.
Proof.
  induction l as [| r l IH].
  - reflexivity.
  - rewrite items_for_each_cons, finish_for_each_cons.
    cbn [relax_loop_steps]. unfold relax_steps, relax_steps_end.
    rewrite items_relax_replay, finish_relax_replay, <- IH.
    destruct (library_lookup W lib (map_id r)) as [x | bm].
    + reflexivity.
    + destruct (finish (investigate W (mkInvestigator r bm (ur_thresh d)))).
      * now rewrite <- app_assoc.
      * now rewrite !app_nil_r.
Qed.

(** [run] does what the pipeline does, step for step. *)
Lemma items_run_pipeline (W : Collaborators) (self : Circleguard)
    (c : Check) :
  items (run W self c) = pipeline_steps W self c.
Proof.
  rewrite items_run. unfold pipeline_steps.
  destruct (check_load W (loader self) (cacher self) c) as [x | rs];
    [reflexivity |].
  do 2 f_equal.
  rewrite items_steal_check. unfold steal_steps, steal_steps_end.
  assert (Hfs : finish (steal_check W (detect c) rs) =
                if Detect_contains STEAL (detect c)
                then finish (compare W
                       (mkComparer (steal_thresh (detect c)) (all_replays rs)
                          (all_replays2 rs)))
                else Returned tt).
  { unfold steal_check. destruct (Detect_contains STEAL (detect c));
      [apply finish_yield_from | reflexivity]. }
  rewrite Hfs. f_equal.
  destruct (if Detect_contains STEAL (detect c)
            then finish (compare W
                   (mkComparer (steal_thresh (detect c)) (all_replays rs)
                      (all_replays2 rs)))
            else Returned tt); [| reflexivity].
  unfold relax_check_steps.
  destruct (Detect_contains RELAX (detect c)) eqn:Hd.
  2:{ now rewrite items_relax_check_off by assumption. }
  destruct (run_library self) as [lib |] eqn:Hlib.
  - rewrite (@items_relax_check W self (detect c) rs lib Hd Hlib).
    f_equal. apply relax_loop_items.
  - unfold relax_check, run_library, library_connect in *. rewrite Hd.
    destruct (library self); [discriminate |].
    destruct (slider_dir self); [discriminate | reflexivity].
Qed.

(** C4: [run] is pull-driven.  The call itself performs nothing.  After
    it, whatever the consumer does with the generator ([next] and [close]
    in any order), what has been performed is the pipeline's steps up to
    the yield of the last result the consumer asked for, and no step
    beyond: of a detector, exactly its own steps up to that result, and
    for the relax detector only the lookups and investigations of the
    replays up to the one that result belongs to.  Nothing is done ahead
    of a request, and nothing after the consumer stops asking. *)
Theorem run_is_pull_driven (W : Collaborators) (self : Circleguard)
    (c : Check) (tr : list Event) (ops : list Op) :
  snd (call_run W self c tr) = tr /\
  snd (consume ops (fst (call_run W self c tr)) tr) =
  tr ++ events (upto (requested ops) (pipeline_steps W self c)).
Proof.
  split; [reflexivity |].
  change (fst (call_run W self c tr)) with (Some (run W self c)).
  now rewrite consume_trace, items_run_pipeline.
Qed.

(** * The library connection, in place *)

(** Only an instance without a library of its own opens or closes a
    connection in [run]. *)
Lemma run_open_close_only_temp (W : Collaborators) (self : Circleguard)
    (c : Check) :
  Forall (fun e => is_open_close e = true -> library self = None)
    (events (items (run W self c))).
Proof.
  destruct (library self) as [l |] eqn:Hown.
  2:{ apply Forall_forall. intros e _ _. reflexivity. }
  assert (Hw : forall es, Forall (fun e => is_open_close e = false) es ->
               Forall (fun e => is_open_close e = true -> Some l = None) es).
  { intros es. apply Forall_impl. intros e He1 He2. congruence. }
  apply Hw. rewrite items_run. cbn [events].
  constructor; [reflexivity |]. constructor; [reflexivity |].
  destruct (check_load W (loader self) (cacher self) c) as [x | rs];
    [constructor |].
  rewrite events_app. apply Forall_app; split.
  { apply steal_check_no_open_close. }
  destruct (finish (steal_check W (detect c) rs)); [| constructor].
  destruct (Detect_contains RELAX (detect c)) eqn:Hd.
  2:{ rewrite items_relax_check_off by assumption. constructor. }
  assert (Hlib : run_library self = Some l)
    by (unfold run_library; now rewrite Hown).
  rewrite (@items_relax_check W self (detect c) rs l Hd Hlib).
  unfold connect_events, close_events. rewrite Hown. cbn [map app].
  rewrite events_app. apply Forall_app; split.
  - apply for_each_events_Forall, relax_replay_no_open_close.
  - destruct (finish (for_each (all_replays rs)
                        (relax_replay W (detect c) l))); constructor.
Qed.

(** C2, amended.  For a run with relax enabled: when it is drained to its
    normal end, its log is the log line, the load, the steal check (all
    of it comparer work), then, on an instance without a library of its
    own, the opening of one connection on the temporary directory, then
    the replay loop (lookups and investigations, no opening or closing),
    then, on such an instance, the closing of that connection, and
    nothing after; on an instance with its own library nothing is opened
    or closed.  And whatever the consumer does, drained or not, only an
    instance without a library of its own opens or closes a connection
    in [run]. *)
Theorem run_library_handle (W : Collaborators) (self : Circleguard)
    (c : Check) (rs : Replays) (lib : Library) (ops : list Op) :
  Detect_contains RELAX (detect c) = true ->
  check_load W (loader self) (cacher self) c = inr rs ->
  run_library self = Some lib ->
  (finish (run W self c) = Returned tt ->
   snd (list_of (fst (call_run W self c [])) []) =
     [LogInfo c; CheckLoad (loader self) (cacher self) c] ++
     events (items (steal_check W (detect c) rs)) ++
     match library self with
     | None => [LibraryOpen (library_path lib)]
     | Some _ => []
     end ++
     events (items (for_each (all_replays rs)
                      (relax_replay W (detect c) lib))) ++
     match library self with
     | None => [LibraryClose lib]
     | Some _ => []
     end) /\
  Forall (fun e => is_steal_event e = true)
    (events (items (steal_check W (detect c) rs))) /\
  Forall (fun e => is_open_close e = false)
    (events (items (for_each (all_replays rs)
                     (relax_replay W (detect c) lib)))) /\
  Forall (fun e => is_open_close e = true -> library self = None)
    (snd (consume ops (fst (call_run W self c [])) [])).
Proof.
  intros Hd Hl Hlib.
  change (fst (call_run W self c [])) with (Some (run W self c)).
  split; [| split; [| split]].
  - intros Hf.
    destruct (events_run_returned W self c Hd Hl Hlib Hf) as [_ Hev].
    unfold list_of. rewrite drain_spec. cbn [snd app]. rewrite Hev.
    reflexivity.
  - apply steal_check_events.
  - apply for_each_events_Forall, relax_replay_no_open_close.
  - rewrite consume_trace. cbn [app]. apply upto_events_Forall.
    apply run_open_close_only_temp.
Qed.

Lemma run_library_handle_witness :
  let W := demo_world demo_replays all_known in
  let c := demo_check [STEAL; RELAX] in
  let lib := mkLibrary "/tmp/slider" in
  Detect_contains RELAX (detect c) = true /\
  check_load W (loader (demo_temp W)) (cacher (demo_temp W)) c =
    inr demo_replays /\
  run_library (demo_temp W) = Some lib /\
  finish (run W (demo_temp W) c) = Returned tt /\
  snd (list_of (fst (call_run W (demo_temp W) c [])) []) =
    [LogInfo c; CheckLoad (mkLoader None "key") None c] ++
    events (items (steal_check W (detect c) demo_replays)) ++
    [LibraryOpen "/tmp/slider"] ++
    events (items (for_each (all_replays demo_replays)
                     (relax_replay W (detect c) lib))) ++
    [LibraryClose lib].
Proof.
  intros W c lib.
  refine (conj eq_refl (conj eq_refl (conj eq_refl (conj eq_refl _)))).
  exact (proj1 (@run_library_handle W (demo_temp W) c demo_replays lib []
                  eq_refl eq_refl eq_refl) eq_refl).
Defined.

(** * Lookups and investigations, in place *)

Lemma for_each_returned_events {E R X} (body : X -> Gen E R unit)
    (l : list X) :
  finish (for_each l body) = Returned tt ->
  events (items (for_each l body)) =
  flat_map (fun y => events (items (body y))) l.
Proof.
  induction l as [| y l IH]; intros Hf.
  - reflexivity.
  - rewrite finish_for_each_cons in Hf.
    rewrite items_for_each_cons, events_app.
    destruct (finish (body y)); [| discriminate].
    simpl. now rewrite IH.
Qed.

Lemma relax_loop_returned_lookups (W : Collaborators) (d : Detect)
    (lib : Library) (l : list Replay) :
  finish (for_each l (relax_replay W d lib)) = Returned tt ->
  Forall (fun r => exists bm, library_lookup W lib (map_id r) = inr bm) l.
Proof.
  induction l as [| r l IH]; intros Hf.
  - constructor.
  - rewrite finish_for_each_cons, finish_relax_replay in Hf.
    destruct (library_lookup W lib (map_id r)) as [x | bm] eqn:Hlk;
      [discriminate |].
    destruct (finish (investigate W (mkInvestigator r bm (ur_thresh d))));
      [| discriminate].
    constructor; [now exists bm | now apply IH].
Qed.

(** C7, amended.  In a run with relax enabled that is drained to its
    normal end, the part of the log after the steal check and the
    connection to a temporary library, and before the disconnection from
    it, is, for each replay of [all_replays()] in turn, one lookup of
    that replay's map (with [download=True, save=True]) directly followed
    by the work of the investigator made from that replay and the beatmap
    that very lookup returned.  So the
    lookups are one per replay, in order, a map shared by several replays
    being asked for as many times; and every one of them succeeded. *)
Theorem run_lookup_per_replay (W : Collaborators) (self : Circleguard)
    (c : Check) (rs : Replays) (lib : Library) (res : list Result)
    (tr' : list Event) :
  Detect_contains RELAX (detect c) = true ->
  check_load W (loader self) (cacher self) c = inr rs ->
  run_library self = Some lib ->
  list_of (fst (call_run W self c [])) [] = (res, Returned tt, tr') ->
  tr' =
    [LogInfo c; CheckLoad (loader self) (cacher self) c] ++
    events (items (steal_check W (detect c) rs)) ++
    connect_events self lib ++
    flat_map
      (fun r =>
         LibraryLookup lib (map_id r) true true ::
         match library_lookup W lib (map_id r) with
         | inl _ => []
         | inr bm =>
             map RelaxWork
               (events (items (investigate W
                          (mkInvestigator r bm (ur_thresh (detect c))))))
         end)
      (all_replays rs) ++
    close_events self lib /\
  Forall (fun r => exists bm, library_lookup W lib (map_id r) = inr bm)
    (all_replays rs) /\
  filter is_lookup tr' =
    map (fun r => LibraryLookup lib (map_id r) true true) (all_replays rs).
Proof.
  intros Hd Hl Hlib Hrun.
  change (fst (call_run W self c [])) with (Some (run W self c)) in Hrun.
  unfold list_of in Hrun. rewrite drain_spec in Hrun.
  assert (Hf : finish (run W self c) = Returned tt)
    by exact (f_equal (fun p => snd (fst p)) Hrun).
  assert (Htr : events (items (run W self c)) = tr')
    by exact (f_equal snd Hrun).
  subst tr'. clear Hrun.
  destruct (events_run_returned W self c Hd Hl Hlib Hf) as [Hloop Hev].
  split; [| split].
  - rewrite Hev, (for_each_returned_events _ _ Hloop).
    rewrite (flat_map_ext
               (fun y => events (items (relax_replay W (detect c) lib y)))
               (fun r =>
                  LibraryLookup lib (map_id r) true true ::
                  match library_lookup W lib (map_id r) with
                  | inl _ => []
                  | inr bm =>
                      map RelaxWork
                        (events (items (investigate W
                                   (mkInvestigator r bm
                                      (ur_thresh (detect c))))))
                  end)).
    + reflexivity.
    + intros r. rewrite items_relax_replay. cbn [events]. f_equal.
      destruct (library_lookup W lib (map_id r)); [reflexivity |].
      apply events_map_item.
  - exact (relax_loop_returned_lookups W (detect c) lib _ Hloop).
  - rewrite Hev, !filter_app. cbn [filter is_lookup app].
    rewrite steal_check_lookups, (relax_loop_lookups _ _ _ _ Hloop).
    unfold connect_events, close_events.
    destruct (library self); simpl; now rewrite ?app_nil_r.
Qed.

Lemma run_lookup_per_replay_witness :
  let rs := mkReplays [demo_r1; demo_r2] None in
  let W := demo_world rs all_known in
  let c := demo_check [RELAX] in
  let lib := mkLibrary "/tmp/slider" in
  Detect_contains RELAX (detect c) = true /\
  check_load W (loader (demo_temp W)) (cacher (demo_temp W)) c = inr rs /\
  run_library (demo_temp W) = Some lib /\
  snd (list_of (fst (call_run W (demo_temp W) c [])) []) =
    [LogInfo c; CheckLoad (mkLoader None "key") None c;
     LibraryOpen "/tmp/slider";
     LibraryLookup lib 7 true true;
     RelaxWork (Investigated demo_r1 (mkBeatmap 7));
     LibraryLookup lib 7 true true;
     RelaxWork (Investigated demo_r2 (mkBeatmap 7));
     LibraryClose lib].
Proof.
  intros rs W c lib.
  refine (conj eq_refl (conj eq_refl (conj eq_refl _))).
  exact (proj1 (@run_lookup_per_replay W (demo_temp W) c rs lib _ _
                  eq_refl eq_refl eq_refl eq_refl)).
Defined.

(** * The library connection is used only while it is open *)

Lemma Library_eqb_refl (lib : Library) : Library_eqb lib lib = true.
Proof.
  unfold Library_eqb. apply String.eqb_refl.
Qed.

Lemma library_session_app (l1 l2 : list Event) :
  forall st,
  library_session st (l1 ++ l2) =
  match library_session st l1 with
  | Some st' => library_session st' l2
  | None => None
  end.
Proof.
  induction l1 as [| e l1 IH]; intros st.
  - reflexivity.
  - destruct e, st as [cur |]; cbn [app library_session]; auto;
      destruct (Library_eqb cur lib); auto.
Qed.

Lemma library_session_prefix (l1 l2 : list Event)
    (st st' : option Library) :
  library_session st (l1 ++ l2) = Some st' ->
  exists st1, library_session st l1 = Some st1.
Proof.
  rewrite library_session_app.
  destruct (library_session st l1) as [st1 |]; [eauto | discriminate].
Qed.

Lemma library_session_quiet (l : list Event) (st : option Library) :
  Forall (fun e => is_relax_event e = false) l ->
  library_session st l = Some st.
Proof.
  induction 1 as [| e l He _ IH].
  - reflexivity.
  - destruct e; simpl in *; try discriminate; exact IH.
Qed.

Lemma library_session_work (ws : list Work) (st : option Library) :
  library_session st (map RelaxWork ws) = Some st.
Proof.
  induction ws as [| w ws IH]; [reflexivity | exact IH].
Qed.

Lemma steal_check_quiet (W : Collaborators) (d : Detect) (rs : Replays) :
  Forall (fun e => is_relax_event e = false)
    (events (items (steal_check W d rs))).
Proof.
  eapply Forall_impl; [| apply steal_check_events].
  intros e He. destruct e; simpl in *; try discriminate; reflexivity.
Qed.

(** The replay loop queries the connection it was given, and no other. *)
Lemma relax_loop_session (W : Collaborators) (d : Detect) (lib : Library)
    (l : list Replay) :
  library_session (Some lib)
    (events (items (for_each l (relax_replay W d lib)))) = Some (Some lib).
Proof.
  induction l as [| r l IH].
  - reflexivity.
  - rewrite items_for_each_cons, events_app, library_session_app.
    destruct (relax_replay_events W d lib r) as [ws ->].
    cbn [library_session]. rewrite Library_eqb_refl, library_session_work.
    destruct (finish (relax_replay W d lib r)); [exact IH | reflexivity].
Qed.

(** Starting from the connection the instance holds, if any, the whole
    of a run keeps to the discipline. *)
Lemma run_library_session (W : Collaborators) (self : Circleguard)
    (c : Check) (lib : Library) :
  run_library self = Some lib ->
  exists st,
    library_session (library self) (events (items (run W self c))) = Some st.
Proof.
  intros Hlib. rewrite items_run. cbn [events library_session].
  destruct (check_load W (loader self) (cacher self) c) as [x | rs];
    [eexists; reflexivity |].
  rewrite events_app, library_session_app.
  rewrite (library_session_quiet _ (steal_check_quiet W (detect c) rs)).
  destruct (finish (steal_check W (detect c) rs));
    [| eexists; reflexivity].
  destruct (Detect_contains RELAX (detect c)) eqn:Hd.
  2:{ rewrite items_relax_check_off by assumption. eexists; reflexivity. }
  rewrite (@items_relax_check W self (detect c) rs lib Hd Hlib).
  rewrite !events_app, events_map_Ev.
  pose proof (relax_loop_session W (detect c) lib (all_replays rs)) as Hloop.
  unfold connect_events, close_events, run_library in *.
  destruct (library self) as [l |].
  - injection Hlib as ->. cbn [app].
    rewrite library_session_app, Hloop.
    destruct (finish (for_each (all_replays rs)
                        (relax_replay W (detect c) lib)));
      eexists; reflexivity.
  - destruct lib as [dir]. cbn [app library_session library_path].
    rewrite library_session_app, Hloop.
    destruct (finish (for_each (all_replays rs)
                        (relax_replay W (detect c) (mkLibrary dir)))).
    + rewrite events_map_Ev. cbn [library_session].
      rewrite Library_eqb_refl. eexists; reflexivity.
    + eexists; reflexivity.
Qed.

(** From the construction of an instance on, through a run of it that
    the consumer may stop anywhere, the log keeps to the discipline of
    the library: a map is looked up only on the connection that is open
    (the instance's own, or the temporary one between connecting and
    disconnecting), no connection is opened while one is open, and the
    connection closed is the one that is open.  And [run] opens or
    closes a connection only on an instance made without [slider_dir],
    which enters [run] with none open: what [run] closes it has opened
    itself. *)
Theorem init_run_library_protocol (W : Collaborators) (key : string)
    (db_path sd : option Path) (ld : option string) (c0 : bool)
    (c : Check) (ops : list Op) :
  let self := fst (Circleguard_init W key db_path sd ld c0) in
  let tr0 := snd (Circleguard_init W key db_path sd ld c0) in
  library_session None tr0 = Some (library self) /\
  (exists st,
     library_session None
       (snd (consume ops (fst (call_run W self c tr0)) tr0)) = Some st) /\
  Forall (fun e => is_open_close e = true -> sd = None)
    (snd (consume ops (fst (call_run W self c [])) [])).
Proof.
  intros self tr0.
  assert (H0 : library_session None tr0 = Some (library self)).
  { subst self tr0. destruct sd; [reflexivity |].
    cbn -[Library_eqb]. now rewrite Library_eqb_refl. }
  split; [exact H0 |]. split.
  - change (fst (call_run W self c tr0)) with (Some (run W self c)).
    rewrite consume_trace, library_session_app, H0.
    destruct (run_library_session W self c
                (init_run_library W key db_path sd ld c0)) as [st Hst].
    destruct (upto_prefix (requested ops) (items (run W self c)))
      as [rest Hr].
    rewrite Hr, events_app in Hst.
    eapply library_session_prefix. exact Hst.
  - change (fst (call_run W self c [])) with (Some (run W self c)).
    rewrite consume_trace. cbn [app]. apply upto_events_Forall.
    eapply Forall_impl; [| apply run_open_close_only_temp].
    intros e He Hoc. specialize (He Hoc).
    subst self. destruct sd; [discriminate | reflexivity].
Qed.

(** * One replay, both detectors *)

(** C1, refuted as stated: with both detectors enabled and a single
    replay, the comparer has no pair and yields nothing, and the first
    result the consumer gets is the relax result, after the library was
    opened and queried and the replay investigated; no steal result is
    ever seen. *)
Lemma run_single_replay_counterexample :
  let rs := mkReplays [demo_r1] None in
  let W := demo_world rs all_known in
  let c := demo_check [STEAL; RELAX] in
  let lib := mkLibrary "/tmp/slider" in
  Detect_contains STEAL (detect c) = true /\
  Detect_contains RELAX (detect c) = true /\
  fst (fst (next (fst (call_run W (demo_temp W) c [])) [])) =
    Got (RelaxResult demo_r1 (Some 10) 50 true) /\
  snd (next (fst (call_run W (demo_temp W) c [])) []) =
    [LogInfo c; CheckLoad (mkLoader None "key") None c;
     LibraryOpen "/tmp/slider"; LibraryLookup lib 7 true true;
     RelaxWork (Investigated demo_r1 (mkBeatmap 7))] /\
  fst (fst (list_of (fst (call_run W (demo_temp W) c [])) [])) =
    [RelaxResult demo_r1 (Some 10) 50 true].
Proof.
  vm_compute. repeat split.
Qed.
